(** * scopehal-apps: the measurements dialog's stream list and the waveform thread

    A shallow embedding of
    - [src/ngscopeclient/MeasurementsDialog.cpp]: the list of displayed
      streams ([m_streams]), its de-duplication set ([m_streamset]) and the
      reference counts the dialog takes on oscilloscope channels;
    - [src/ngscopeclient/WaveformThread.cpp]: the acquisition loop and its
      two hand-shake events.

    The dialog is sequential code over mutable members: it is embedded as
    functions from one dialog state to the outcome of the call.  The thread
    is a loop that talks to its environment: it is embedded as an
    interaction tree, run one event at a time against the shared state
    it reads and writes. *)

From ITree Require Import ITree.
From stdpp Require Import gmap list strings.

Set Default Proof Using "Type".
#[local] Set Warnings "-clear-no-such-hyp".

(* ================================================================= *)
(** * Part I: definitions *)
(* ================================================================= *)

(* ----------------------------------------------------------------- *)
(** ** Outcome of a C++ call *)

(** A member function returns, leaves with an exception, or runs into
    undefined behaviour (here: indexing a [std::vector] out of range, or
    inserting past its end).  None of the embedded functions has a [throw]:
    [Throws] is there so that "fails with an error" can be said at all. *)
Inductive Exception : Type :=
| out_of_range
| invalid_argument.

Inductive Outcome (S : Type) : Type :=
| Returns (s : S)
| Throws (e : Exception) (s : S)
| Undefined.
Arguments Returns {S} s.
Arguments Throws {S} e s.
Arguments Undefined {S}.

(** Sequencing: an exception or undefined behaviour ends the sequence. *)
Definition and_then {S : Type} (o : Outcome S) (k : S -> Outcome S) : Outcome S :=
  match o with
  | Returns s => k s
  | Throws e s => Throws e s
  | Undefined => Undefined
  end.

(* ----------------------------------------------------------------- *)
(** ** Channels and stream descriptors *)

(** [StreamDescriptor::m_channel] is a pointer to an instrument channel.
    What the dialog asks of it is its identity and whether
    [dynamic_cast<OscilloscopeChannel*>] succeeds; an oscilloscope channel
    is named by a number (its address), and so is any other channel. *)
Inductive InstrumentChannelPtr : Type :=
| nullptr
| scope_channel (c : nat)
| other_channel (a : nat).

(** [dynamic_cast<OscilloscopeChannel*>(p)]: the channel when [p] points to
    an oscilloscope channel, null ([None]) otherwise. *)
Definition dynamic_cast_OscilloscopeChannel (p : InstrumentChannelPtr) : option nat :=
  match p with
  | scope_channel c => Some c
  | nullptr | other_channel _ => None
  end.

(** Modelled from the spec: the class [StreamDescriptor] is declared outside
    src/.  The spec (section 3) gives it as a (channel reference, output
    index) pair with structural equality: [operator==] is Leibniz equality
    of the record, and the order of [std::set<StreamDescriptor>] identifies
    exactly the equal descriptors. *)
Record StreamDescriptor : Type := mkStream {
  m_channel : InstrumentChannelPtr;
  m_stream : nat
}.

#[global] Instance InstrumentChannelPtr_eq_dec : EqDecision InstrumentChannelPtr.
Proof. solve_decision. Defined.

#[global] Instance StreamDescriptor_eq_dec : EqDecision StreamDescriptor.
Proof. solve_decision. Defined.

Definition StreamDescriptor_code (d : StreamDescriptor) : (unit + nat + nat) * nat :=
  (match m_channel d with
   | nullptr => inl (inl tt)
   | scope_channel c => inl (inr c)
   | other_channel a => inr a
   end, m_stream d).

Definition StreamDescriptor_decode (p : (unit + nat + nat) * nat) : StreamDescriptor :=
  mkStream (match p.1 with
            | inl (inl _) => nullptr
            | inl (inr c) => scope_channel c
            | inr a => other_channel a
            end) p.2.

#[global] Instance StreamDescriptor_countable : Countable StreamDescriptor.
Proof.
  apply (inj_countable' StreamDescriptor_code StreamDescriptor_decode).
  intros [[] ?]; reflexivity.
Defined.

(** The converting constructor the call [m_streamset.erase(ochan)] goes
    through, as scopehal declares it: [StreamDescriptor(channel, stream = 0)].
    The class is outside src/, so the dialog's functions below take the
    conversion as a parameter; this is the instance the examples use. *)
Definition stream0_of_channel (ochan : option nat) : StreamDescriptor :=
  mkStream (match ochan with Some c => scope_channel c | None => nullptr end) 0.

(* ----------------------------------------------------------------- *)
(** ** The dialog's state *)

(** [ochan->AddRef()] and [ochan->Release()] are calls on objects outside
    the dialog.  The state keeps the calls the dialog has made, oldest
    first; what the dialog holds on a channel is the difference of the two
    counts. *)
Inductive RefCall : Type :=
| AddRef (c : nat)
| Release (c : nat).

#[global] Instance RefCall_eq_dec : EqDecision RefCall.
Proof. solve_decision. Defined.

Record MeasurementsDialog : Type := mkDialog {
  m_streams : list StreamDescriptor;
  m_streamset : gset StreamDescriptor;
  ref_calls : list RefCall
}.

(** The constructor leaves both containers empty. *)
Definition MeasurementsDialog_new : MeasurementsDialog := mkDialog [] ∅ [].

Definition count_calls (r : RefCall) (calls : list RefCall) : nat :=
  length (filter (λ x, x = r) calls).

(** References the dialog currently holds on oscilloscope channel [c]. *)
Definition held (st : MeasurementsDialog) (c : nat) : Z :=
  (Z.of_nat (count_calls (AddRef c) (ref_calls st))
   - Z.of_nat (count_calls (Release c) (ref_calls st)))%Z.

(** [if(ochan) ochan->AddRef();] and [if(ochan) ochan->Release();] *)
Definition call_AddRef (ochan : option nat) (calls : list RefCall) : list RefCall :=
  match ochan with Some c => calls ++ [AddRef c] | None => calls end.

Definition call_Release (ochan : option nat) (calls : list RefCall) : list RefCall :=
  match ochan with Some c => calls ++ [Release c] | None => calls end.

(** Modelled from the spec: [HasStream] is defined in MeasurementsDialog.h,
    which is not under src/.  The spec (section 4.3, Contains) gives it as
    the membership test of the de-duplication set. *)
Definition HasStream (st : MeasurementsDialog) (stream : StreamDescriptor) : bool :=
  bool_decide (stream ∈ m_streamset st).

(* ----------------------------------------------------------------- *)
(** ** std::vector operations the dialog uses *)

(** [v.insert(v.begin() + pos, x)], for [pos <= v.size()]. *)
Definition vector_insert {A : Type} (pos : nat) (x : A) (v : list A) : list A :=
  take pos v ++ x :: drop pos v.

(** The loop of [DoRender] lines 152-160: erase the first element equal to
    [moveStream], if there is one, and stop. *)
Fixpoint erase_first (moveStream : StreamDescriptor) (v : list StreamDescriptor)
  : list StreamDescriptor :=
  match v with
  | [] => []
  | s :: v' => if decide (s = moveStream) then v' else s :: erase_first moveStream v'
  end.

(* ----------------------------------------------------------------- *)
(** ** MeasurementsDialog::AddStream, RemoveStream and the move of DoRender *)

Definition AddStream (stream : StreamDescriptor) (st : MeasurementsDialog)
  : MeasurementsDialog :=
  if HasStream st stream then st
  else
    mkDialog (m_streams st ++ [stream])
             ({[stream]} ∪ m_streamset st)
             (call_AddRef (dynamic_cast_OscilloscopeChannel (m_channel stream))
                          (ref_calls st)).

Section Conversion.

(** The conversion from [OscilloscopeChannel*] to the key type of
    [m_streamset] that [m_streamset.erase(ochan)] applies. *)
Variable as_descriptor : option nat -> StreamDescriptor.

(** [m_streams[i]] is unchecked: out of range the behaviour is undefined. *)
Definition RemoveStream (i : nat) (st : MeasurementsDialog) : Outcome MeasurementsDialog :=
  match m_streams st !! i with
  | None => Undefined
  | Some s =>
      let ochan := dynamic_cast_OscilloscopeChannel (m_channel s) in
      Returns (mkDialog (delete i (m_streams st))
                        (m_streamset st ∖ {[as_descriptor ochan]})
                        (call_Release ochan (ref_calls st)))
  end.

End Conversion.

(** [DoRender] lines 147-166, the body of [if(moving)]. *)
Definition MoveStream (moveStream : StreamDescriptor) (moveDest : nat)
    (st : MeasurementsDialog) : Outcome MeasurementsDialog :=
  let v := erase_first moveStream (m_streams st) in
  if decide (moveDest ≤ length v)
  then Returns (mkDialog (vector_insert moveDest moveStream v)
                         ({[moveStream]} ∪ m_streamset st)
                         (ref_calls st))
  else Undefined.

(** The destructor releases one reference per listed stream. *)
Definition MeasurementsDialog_destroy (st : MeasurementsDialog) : MeasurementsDialog :=
  mkDialog []
           (m_streamset st)
           (foldl (λ calls s,
                     call_Release (dynamic_cast_OscilloscopeChannel (m_channel s)) calls)
                  (ref_calls st) (m_streams st)).

(* ----------------------------------------------------------------- *)
(** ** MeasurementsDialog::DoRender *)

(** What ImGui reports for one table row during a frame: the payload of
    type "Scalar" and of the size of a [StreamDescriptor] that the row
    accepted as a drop target, if any, and whether "Delete" was chosen in
    the row's context menu. *)
Record RowInput : Type := mkRow {
  accepted_payload : option StreamDescriptor;
  delete_clicked : bool
}.

Record FrameInput : Type := mkFrame {
  BeginTable : bool;
  row_input : nat -> RowInput;
  blank_row_payload : option StreamDescriptor
}.

(** The locals the row loop sets: [moving] with [moveStream] and
    [moveDest], and [deleteRow] with [rowToDelete]. *)
Record RowLoop : Type := mkLoop {
  moving : option (StreamDescriptor * nat);
  deleteRow : option nat
}.

Definition render_row (ui : FrameInput) (acc : RowLoop) (i : nat) : RowLoop :=
  mkLoop (match accepted_payload (row_input ui i) with
          | Some moveStream => Some (moveStream, i)
          | None => moving acc
          end)
         (if delete_clicked (row_input ui i) then Some i else deleteRow acc).

(** [for(size_t i=0; i<m_streams.size(); i++)] *)
Definition render_rows (ui : FrameInput) (st : MeasurementsDialog) : RowLoop :=
  foldl (render_row ui) (mkLoop None None) (seq 0 (length (m_streams st))).

Definition DoRender (as_descriptor : option nat -> StreamDescriptor)
    (ui : FrameInput) (st : MeasurementsDialog) : Outcome MeasurementsDialog :=
  if BeginTable ui then
    let loop := render_rows ui st in
    and_then
      (match moving loop with
       | Some (moveStream, moveDest) => MoveStream moveStream moveDest st
       | None => Returns st
       end)
      (λ st1,
         let st2 :=
           match m_streams st1, blank_row_payload ui with
           | [], Some stream => AddStream stream st1
           | _, _ => st1
           end in
         match deleteRow loop with
         | Some rowToDelete => RemoveStream as_descriptor rowToDelete st2
         | None => Returns st2
         end)
  else Returns st.

(* ----------------------------------------------------------------- *)
(** ** Sequences of registry requests *)

(** The three requests the user interface makes of the stream list. *)
Inductive Request : Type :=
| Add (descriptor : StreamDescriptor)
| Remove (position : nat)
| Move (descriptor : StreamDescriptor) (destPosition : nat).

Definition perform (as_descriptor : option nat -> StreamDescriptor)
    (r : Request) (st : MeasurementsDialog) : Outcome MeasurementsDialog :=
  match r with
  | Add d => Returns (AddStream d st)
  | Remove i => RemoveStream as_descriptor i st
  | Move d dest => MoveStream d dest st
  end.

Fixpoint perform_all (as_descriptor : option nat -> StreamDescriptor)
    (rs : list Request) (st : MeasurementsDialog) : Outcome MeasurementsDialog :=
  match rs with
  | [] => Returns st
  | r :: rs' => and_then (perform as_descriptor r st) (perform_all as_descriptor rs')
  end.

(** The sequence and the set hold the same descriptors, each once. *)
Definition coherent (st : MeasurementsDialog) : Prop :=
  NoDup (m_streams st) ∧ list_to_set (m_streams st) = m_streamset st.

(** Is [r], made in state [st], an [Add] for a descriptor of oscilloscope
    channel [c] that is not a no-op? *)
Definition adds_to (c : nat) (r : Request) (st : MeasurementsDialog) : bool :=
  match r with
  | Add d => bool_decide (m_channel d = scope_channel c) && negb (HasStream st d)
  | _ => false
  end.

(** Is [r], made in state [st], a [Remove] of a valid position that holds a
    descriptor of oscilloscope channel [c]? *)
Definition removes_from (c : nat) (r : Request) (st : MeasurementsDialog) : bool :=
  match r with
  | Remove i =>
      match m_streams st !! i with
      | Some d => bool_decide (m_channel d = scope_channel c)
      | None => false
      end
  | _ => false
  end.


(* ----------------------------------------------------------------- *)
(** ** The hand-shake event *)

(** Modelled from the spec: the class [Event] of [g_waveformReadyEvent] and
    [g_waveformProcessedEvent] is declared outside src/.  The spec
    (sections 3 and 4.1) gives it two states; [Signal] marks it signaled
    whatever it was; [Block] returns as soon as it is signaled and resets it
    to idle, and does not return while it is idle ([None]). *)
Inductive Event : Type :=
| idle
| signaled.

Definition Signal (e : Event) : Event := signaled.

Definition Block (e : Event) : option Event :=
  match e with
  | signaled => Some idle
  | idle => None
  end.

(* ----------------------------------------------------------------- *)
(** ** WaveformThread as an interaction tree *)

Inductive EventName : Type :=
| g_waveformReadyEvent
| g_waveformProcessedEvent.

(** What the thread asks of its environment, one constructor per call of
    the source. *)
Variant threadE : Type -> Type :=
| pthread_setname_np_compat (name : string) : threadE unit
| LogTrace (msg : string) : threadE unit
| load_shuttingDown : threadE bool
| CheckForPendingWaveforms : threadE bool
| sleep_for_milliseconds (n : nat) : threadE unit
| DownloadWaveforms : threadE unit
| Event_Signal (ev : EventName) : threadE unit
| Event_Block (ev : EventName) : threadE unit.

#[global] Instance itree_mbind {E : Type -> Type} : MBind (itree E) :=
  λ A B k t, ITree.bind t k.

(** One pass through the body of [while(!*shuttingDown)]: [inr tt] leaves
    the loop, [inl tt] goes round again ([continue], or the end of the
    body). *)
Definition WaveformThread_body (_ : unit) : itree threadE (unit + unit) :=
  shuttingDown ← ITree.trigger load_shuttingDown;
  if (shuttingDown : bool) then Ret (inr tt)
  else
    pending ← ITree.trigger CheckForPendingWaveforms;
    if negb pending then
      ITree.trigger (sleep_for_milliseconds 1);;
      Ret (inl tt)
    else
      ITree.trigger (LogTrace "Got a waveform");;
      ITree.trigger DownloadWaveforms;;
      ITree.trigger (Event_Signal g_waveformReadyEvent);;
      ITree.trigger (Event_Block g_waveformProcessedEvent);;
      Ret (inl tt).

Definition WaveformThread : itree threadE unit :=
  ITree.trigger (pthread_setname_np_compat "WaveformThread");;
  ITree.trigger (LogTrace "Starting");;
  ITree.iter WaveformThread_body tt;;
  ITree.trigger (LogTrace "Shutting down").

(* ----------------------------------------------------------------- *)
(** ** The state the thread shares with the rest of the process *)

(** What the coordinator has done, as seen from outside. *)
Inductive Action : Type :=
| sampled (shuttingDown : bool)
| polled (pending : bool)
| slept (ms : nat)
| downloaded
| signal (ev : EventName)
| woke (ev : EventName).

#[global] Instance EventName_eq_dec : EqDecision EventName.
Proof. solve_decision. Defined.

#[global] Instance Action_eq_dec : EqDecision Action.
Proof. solve_decision. Defined.

(** [pending n] is what the [n]-th call of
    [Session::CheckForPendingWaveforms] answers; [polls] counts the calls
    made; [trace] lists the coordinator's actions, oldest first. *)
Record World : Type := mkWorld {
  shuttingDown : bool;
  waveformReady : Event;
  waveformProcessed : Event;
  pending : nat -> bool;
  polls : nat;
  trace : list Action
}.

Definition event (ev : EventName) (w : World) : Event :=
  match ev with
  | g_waveformReadyEvent => waveformReady w
  | g_waveformProcessedEvent => waveformProcessed w
  end.

Definition set_event (ev : EventName) (e : Event) (w : World) : World :=
  match ev with
  | g_waveformReadyEvent =>
      mkWorld (shuttingDown w) e (waveformProcessed w) (pending w) (polls w) (trace w)
  | g_waveformProcessedEvent =>
      mkWorld (shuttingDown w) (waveformReady w) e (pending w) (polls w) (trace w)
  end.

Definition log (a : Action) (w : World) : World :=
  mkWorld (shuttingDown w) (waveformReady w) (waveformProcessed w)
          (pending w) (polls w) (trace w ++ [a]).

Definition next_poll (w : World) : World :=
  mkWorld (shuttingDown w) (waveformReady w) (waveformProcessed w)
          (pending w) (S (polls w)) (trace w).

(** The answer to one call of the thread and the world after it; [None]
    when the call does not return in this world ([Block] on an idle
    event).  Naming the thread and logging leave the world as it is. *)
Definition handle {X : Type} (e : threadE X) (w : World) : option (X * World) :=
  match e in threadE X return option (X * World) with
  | pthread_setname_np_compat _ => Some (tt, w)
  | LogTrace _ => Some (tt, w)
  | load_shuttingDown => Some (shuttingDown w, log (sampled (shuttingDown w)) w)
  | CheckForPendingWaveforms =>
      Some (pending w (polls w), log (polled (pending w (polls w))) (next_poll w))
  | sleep_for_milliseconds n => Some (tt, log (slept n) w)
  | DownloadWaveforms => Some (tt, log downloaded w)
  | Event_Signal ev => Some (tt, log (signal ev) (set_event ev (Signal (event ev w)) w))
  | Event_Block ev =>
      match Block (event ev w) with
      | Some e' => Some (tt, log (woke ev) (set_event ev e' w))
      | None => None
      end
  end.

(** A thread in mid-run is the tree that is left of it, seen at its root. *)
Definition Thread : Type := itree' threadE unit.

Definition System : Type := Thread * World.

(** One step of the thread: a silent step, or one call answered by the
    world.  A finished or blocked thread stays where it is. *)
Definition thread_step (s : System) : System :=
  match s.1 with
  | RetF _ => s
  | TauF t => (observe t, s.2)
  | VisF e k =>
      match handle e s.2 with
      | Some (x, w) => (observe (k x), w)
      | None => s
      end
  end.

(** The thread has returned from [WaveformThread]. *)
Definition terminated (t : Thread) : bool :=
  match t with
  | RetF _ => true
  | _ => false
  end.

(** What the rest of the process can do to the shared state: set the
    shut-down flag (it is never cleared), and signal or wait on either
    event. *)
Inductive EnvAction : Type :=
| set_shuttingDown
| env_Signal (ev : EventName)
| env_Block (ev : EventName).

#[global] Instance EnvAction_eq_dec : EqDecision EnvAction.
Proof. solve_decision. Defined.

Definition env_step (a : EnvAction) (w : World) : World :=
  match a with
  | set_shuttingDown =>
      mkWorld true (waveformReady w) (waveformProcessed w) (pending w) (polls w) (trace w)
  | env_Signal ev => set_event ev (Signal (event ev w)) w
  | env_Block ev =>
      match Block (event ev w) with
      | Some e' => set_event ev e' w
      | None => w
      end
  end.

Inductive Turn : Type :=
| coordinator
| environment (a : EnvAction).

#[global] Instance Turn_eq_dec : EqDecision Turn.
Proof. solve_decision. Defined.

Definition turn (s : System) (t : Turn) : System :=
  match t with
  | coordinator => thread_step s
  | environment a => (s.1, env_step a s.2)
  end.

(** A schedule interleaves steps of the thread with the environment's. *)
Definition run (schedule : list Turn) (s : System) : System :=
  foldl turn s schedule.

Definition thread_steps (n : nat) (s : System) : System :=
  run (replicate n coordinator) s.

Definition fresh_world (pending : nat -> bool) : World :=
  mkWorld false idle idle pending 0 [].

(* ----------------------------------------------------------------- *)
(** ** Control points of the thread *)

(** The places the thread can be at, named after the statement it is
    about to execute.  The spec's states are [at_while] (Idle),
    [at_CheckForPendingWaveforms] (Polling), [at_DownloadWaveforms]
    (Downloading), [at_Block] (AwaitingConsumer) and [at_return]
    (Terminated). *)
Inductive Point : Type :=
| at_entry
| at_log_starting
| at_while
| at_CheckForPendingWaveforms
| at_sleep_for
| at_continue
| at_log_got_a_waveform
| at_DownloadWaveforms
| at_Signal
| at_Block
| at_end_of_body
| at_log_shutting_down
| at_return.

#[global] Instance Point_eq_dec : EqDecision Point.
Proof. solve_decision. Defined.

(** Answer the call at the root of [t] with [b], or with [tt], and take
    what is left. *)
Definition resume_with (b : bool) (t : Thread) : Thread :=
  match t with
  | VisF e k =>
      match e in threadE X return (X -> itree threadE unit) -> Thread with
      | load_shuttingDown | CheckForPendingWaveforms => λ k, observe (k b)
      | _ => λ _, t
      end k
  | _ => t
  end.

Definition resume (t : Thread) : Thread :=
  match t with
  | VisF e k =>
      match e in threadE X return (X -> itree threadE unit) -> Thread with
      | load_shuttingDown | CheckForPendingWaveforms => λ _, t
      | _ => λ k, observe (k tt)
      end k
  | TauF t' => observe t'
  | RetF _ => t
  end.

(** The thread at each control point, read off [WaveformThread] itself. *)
Fixpoint thread_upto (n : nat) : Thread :=
  match n with
  | 0 => observe WaveformThread
  | S n' => resume (thread_upto n')
  end.

Definition thread_at (p : Point) : Thread :=
  match p with
  | at_entry => thread_upto 0
  | at_log_starting => thread_upto 1
  | at_while => thread_upto 2
  | at_CheckForPendingWaveforms => resume_with false (thread_upto 2)
  | at_sleep_for => resume_with false (resume_with false (thread_upto 2))
  | at_continue => resume (resume_with false (resume_with false (thread_upto 2)))
  | at_log_got_a_waveform => resume_with true (resume_with false (thread_upto 2))
  | at_DownloadWaveforms => resume (resume_with true (resume_with false (thread_upto 2)))
  | at_Signal => resume (resume (resume_with true (resume_with false (thread_upto 2))))
  | at_Block =>
      resume (resume (resume (resume_with true (resume_with false (thread_upto 2)))))
  | at_end_of_body =>
      resume (resume (resume (resume (resume_with true (resume_with false (thread_upto 2))))))
  | at_log_shutting_down => resume_with true (thread_upto 2)
  | at_return => resume (resume_with true (thread_upto 2))
  end.

(** The actions of the current pass through the loop body that the thread
    has behind it at each control point. *)
Definition pass_so_far (p : Point) : list Action :=
  match p with
  | at_entry | at_log_starting | at_while => []
  | at_CheckForPendingWaveforms => [sampled false]
  | at_sleep_for => [sampled false; polled false]
  | at_continue => [sampled false; polled false; slept 1]
  | at_log_got_a_waveform | at_DownloadWaveforms => [sampled false; polled true]
  | at_Signal => [sampled false; polled true; downloaded]
  | at_Block => [sampled false; polled true; downloaded; signal g_waveformReadyEvent]
  | at_end_of_body =>
      [sampled false; polled true; downloaded; signal g_waveformReadyEvent;
       woke g_waveformProcessedEvent]
  | at_log_shutting_down | at_return => [sampled true]
  end.

(** A pass that found nothing pending, and a pass that captured. *)
Definition retry_pass : list Action :=
  [sampled false; polled false; slept 1].

Definition capture_pass : list Action :=
  [sampled false; polled true; downloaded; signal g_waveformReadyEvent;
   woke g_waveformProcessedEvent].

(** Traces made of whole passes. *)
Inductive passes : list Action -> Prop :=
| passes_nil : passes []
| passes_retry tr : passes tr -> passes (tr ++ retry_pass)
| passes_capture tr : passes tr -> passes (tr ++ capture_pass).

(** The trace is made of whole passes followed by the part of the current
    pass that lies behind the thread. *)
Definition trace_inv (p : Point) (w : World) : Prop :=
  exists tr, passes tr /\ trace w = tr ++ pass_so_far p.

(** The point the thread moves to by one step in world [w] (itself when it
    cannot move). *)
Definition next_point (p : Point) (w : World) : Point :=
  match p with
  | at_entry => at_log_starting
  | at_log_starting => at_while
  | at_while => if shuttingDown w then at_log_shutting_down else at_CheckForPendingWaveforms
  | at_CheckForPendingWaveforms =>
      if pending w (polls w) then at_log_got_a_waveform else at_sleep_for
  | at_sleep_for => at_continue
  | at_continue => at_while
  | at_log_got_a_waveform => at_DownloadWaveforms
  | at_DownloadWaveforms => at_Signal
  | at_Signal => at_Block
  | at_Block =>
      match waveformProcessed w with
      | signaled => at_end_of_body
      | idle => at_Block
      end
  | at_end_of_body => at_while
  | at_log_shutting_down => at_return
  | at_return => at_return
  end.

(** The world after that step. *)
Definition next_world (p : Point) (w : World) : World :=
  match p with
  | at_while => log (sampled (shuttingDown w)) w
  | at_CheckForPendingWaveforms => log (polled (pending w (polls w))) (next_poll w)
  | at_sleep_for => log (slept 1) w
  | at_DownloadWaveforms => log downloaded w
  | at_Signal =>
      log (signal g_waveformReadyEvent) (set_event g_waveformReadyEvent signaled w)
  | at_Block =>
      match waveformProcessed w with
      | signaled =>
          log (woke g_waveformProcessedEvent) (set_event g_waveformProcessedEvent idle w)
      | idle => w
      end
  | _ => w
  end.

(** The control points of the polling phase: the loop head, the poll, the
    sleep and the [continue] that closes a pass which found nothing. *)
Definition polling_phase (p : Point) : bool :=
  match p with
  | at_while | at_CheckForPendingWaveforms | at_sleep_for | at_continue => true
  | _ => false
  end.

(** The same, with the way out of the loop. *)
Definition leaving_phase (p : Point) : bool :=
  match p with
  | at_log_shutting_down | at_return => true
  | _ => polling_phase p
  end.

(** What the thread still does from a point of the polling phase once the
    flag is set and nothing is pending, and in how many steps. *)
Definition shutdown_path (p : Point) : list Action :=
  match p with
  | at_CheckForPendingWaveforms => [polled false; slept 1; sampled true]
  | at_sleep_for => [slept 1; sampled true]
  | at_continue | at_while => [sampled true]
  | _ => []
  end.

Definition steps_to_return (p : Point) : nat :=
  match p with
  | at_CheckForPendingWaveforms => 5
  | at_sleep_for => 4
  | at_continue => 3
  | at_while => 2
  | at_log_shutting_down => 1
  | _ => 0
  end.

Definition coordinator_turns (sch : list Turn) : nat :=
  length (filter (λ t, t = coordinator) sch).

Fixpoint count_polls (tr : list Action) : nat :=
  match tr with
  | [] => 0
  | polled _ :: tr' => S (count_polls tr')
  | _ :: tr' => count_polls tr'
  end.

(** Every poll in the trace comes directly after a sample of the flag that
    read false; [prev] is the action before the first of [tr]. *)
Fixpoint sampled_before_polls (prev : option Action) (tr : list Action) : bool :=
  match tr with
  | [] => true
  | a :: tr' =>
      match a with
      | polled _ => bool_decide (prev = Some (sampled false))
      | _ => true
      end && sampled_before_polls (Some a) tr'
  end.

(* ----------------------------------------------------------------- *)
(** ** Bookkeeping for the further properties *)

(** The rows of the table that show a stream of oscilloscope channel [c]. *)
Definition listed_on (c : nat) (st : MeasurementsDialog) : nat :=
  length (filter (λ d, m_channel d = scope_channel c) (m_streams st)).

(** Every move among [rs], made in turn from [st], is of a stream that is
    listed at that moment (a row dragged onto another row). *)
Fixpoint moves_listed (as_descriptor : option nat -> StreamDescriptor)
    (rs : list Request) (st : MeasurementsDialog) : bool :=
  match rs with
  | [] => true
  | r :: rs' =>
      match r with
      | Move d _ => bool_decide (d ∈ m_streams st)
      | _ => true
      end
      && match perform as_descriptor r st with
         | Returns st' => moves_listed as_descriptor rs' st'
         | _ => true
         end
  end.

(** The key [RemoveStream] erases for [d] is [d] itself. *)
Definition keyed (as_descriptor : option nat -> StreamDescriptor)
    (d : StreamDescriptor) : Prop :=
  as_descriptor (dynamic_cast_OscilloscopeChannel (m_channel d)) = d.

Definition request_keyed (as_descriptor : option nat -> StreamDescriptor)
    (r : Request) : Prop :=
  match r with
  | Add d | Move d _ => keyed as_descriptor d
  | Remove _ => True
  end.

(** A row of a frame in which the user does nothing. *)
Definition quiet (ui : FrameInput) (i : nat) : Prop :=
  accepted_payload (row_input ui i) = None /\ delete_clicked (row_input ui i) = false.

Definition count_action (a : Action) (tr : list Action) : nat :=
  length (filter (λ x, x = a) tr).

(** How often the schedule has the environment signal [ev]. *)
Definition env_signals (ev : EventName) (sch : list Turn) : nat :=
  length (filter (λ t, t = environment (env_Signal ev)) sch).

(** 1 for a signaled event, 0 for an idle one. *)
Definition pending_wakes (e : Event) : nat :=
  match e with
  | signaled => 1
  | idle => 0
  end.

(* ----------------------------------------------------------------- *)
(** ** Concrete inputs used by the examples *)

Definition chanA : StreamDescriptor := mkStream (scope_channel 1) 0.
Definition chanB : StreamDescriptor := mkStream (scope_channel 2) 0.
Definition chanC : StreamDescriptor := mkStream (scope_channel 3) 0.
Definition chanA_stream1 : StreamDescriptor := mkStream (scope_channel 1) 1.

(** Frames of the user interface: nothing happens; a stream is dropped on
    the blank row of an empty table; a stream is dropped on row 0; "Delete"
    is chosen on row 0. *)
Definition quiet_row : RowInput := mkRow None false.

Definition drop_on_blank_row (d : StreamDescriptor) : FrameInput :=
  mkFrame true (λ _, quiet_row) (Some d).

Definition drop_on_row0 (d : StreamDescriptor) : FrameInput :=
  mkFrame true (λ i, if decide (i = 0) then mkRow (Some d) false else quiet_row) None.

Definition delete_row0 : FrameInput :=
  mkFrame true (λ i, if decide (i = 0) then mkRow None true else quiet_row) None.

(** Nothing pending on the first three polls, then a waveform. *)
Definition three_misses (n : nat) : bool := 3 <=? n.

(* ================================================================= *)
(** * Part II: theorems *)
(* ================================================================= *)

(* ----------------------------------------------------------------- *)
(** ** The thread steps from control point to control point *)

Lemma thread_step_point (p : Point) (w : World) :
  thread_step (thread_at p, w) = (thread_at (next_point p w), next_world p w).
Proof.
  destruct w as [sd ready processed pend n tr].
  destruct p; try reflexivity.
  - destruct sd; reflexivity.
  - unfold next_point, next_world; simpl.
    destruct (pend n) eqn:E; unfold thread_step; simpl; rewrite E; reflexivity.
  - destruct processed; reflexivity.
Qed.

Lemma thread_at_return : thread_at at_return = RetF tt.
Proof. reflexivity. Qed.

Lemma run_app (sch1 sch2 : list Turn) (s : System) :
  run (sch1 ++ sch2) s = run sch2 (run sch1 s).
Proof. unfold run. apply foldl_app. Qed.

Lemma run_cons (t : Turn) (sch : list Turn) (s : System) :
  run (t :: sch) s = run sch (turn s t).
Proof. reflexivity. Qed.

Lemma thread_steps_0 (s : System) : thread_steps 0 s = s.
Proof. reflexivity. Qed.

Lemma thread_steps_S (n : nat) (s : System) :
  thread_steps (S n) s = thread_steps n (thread_step s).
Proof. reflexivity. Qed.

Lemma thread_steps_add (n m : nat) (s : System) :
  thread_steps (n + m) s = thread_steps m (thread_steps n s).
Proof.
  unfold thread_steps. rewrite replicate_add. apply run_app.
Qed.

(** One step at a control point, with the point and world it leads to
    computed. *)
Ltac step_point :=
  rewrite thread_steps_S, thread_step_point; cbn [next_point next_world].

(** A pass that finds nothing pending: sample, poll, sleep, and back to the
    loop head. *)
Lemma retry_pass_steps (w : World) :
  shuttingDown w = false ->
  pending w (polls w) = false ->
  thread_steps 4 (thread_at at_while, w)
  = (thread_at at_while,
     mkWorld false (waveformReady w) (waveformProcessed w) (pending w)
             (S (polls w)) (trace w ++ retry_pass)).
Proof.
  intros Hsd Hpoll.
  step_point. rewrite Hsd.
  step_point. cbn [log next_poll pending polls]. rewrite Hpoll.
  step_point. step_point.
  rewrite thread_steps_0. f_equal.
  destruct w; cbn in *. subst. unfold log, retry_pass; cbn.
  rewrite <- !app_assoc. reflexivity.
Qed.

(** A pass that finds a waveform: sample, poll, download, signal, and wait
    at [Block]. *)
Lemma capture_pass_steps (w : World) :
  shuttingDown w = false ->
  pending w (polls w) = true ->
  thread_steps 5 (thread_at at_while, w)
  = (thread_at at_Block,
     mkWorld false signaled (waveformProcessed w) (pending w) (S (polls w))
             (trace w ++ pass_so_far at_Block)).
Proof.
  intros Hsd Hpoll.
  step_point. rewrite Hsd.
  step_point. cbn [log next_poll pending polls]. rewrite Hpoll.
  do 3 step_point.
  rewrite thread_steps_0. f_equal.
  destruct w; cbn in *. subst. unfold log; cbn.
  rewrite <- !app_assoc. reflexivity.
Qed.

(** At [Block] with the event idle the thread does not move. *)
Lemma blocked_steps (n : nat) (w : World) :
  waveformProcessed w = idle ->
  thread_steps n (thread_at at_Block, w) = (thread_at at_Block, w).
Proof.
  intros Hidle. induction n as [|n IH]; [reflexivity|].
  step_point. rewrite Hidle. exact IH.
Qed.

(** A returned thread does not move. *)
Lemma returned_steps (n : nat) (w : World) :
  thread_steps n (thread_at at_return, w) = (thread_at at_return, w).
Proof.
  induction n as [|n IH]; [reflexivity|].
  step_point. exact IH.
Qed.

(** [misses] passes in a row that find nothing pending. *)
Lemma retry_passes_steps (misses : nat) (w : World) :
  shuttingDown w = false ->
  (forall i, i < misses -> pending w (polls w + i) = false) ->
  thread_steps (4 * misses) (thread_at at_while, w)
  = (thread_at at_while,
     mkWorld false (waveformReady w) (waveformProcessed w) (pending w)
             (polls w + misses) (trace w ++ concat (replicate misses retry_pass))).
Proof.
  revert w. induction misses as [|m IH]; intros w Hsd Hmiss.
  - destruct w; cbn in *. subst.
    rewrite Nat.add_0_r, app_nil_r. reflexivity.
  - replace (4 * S m) with (4 + 4 * m) by lia.
    rewrite thread_steps_add, retry_pass_steps; [| exact Hsd |].
    2:{ rewrite <- (Hmiss 0) by lia. f_equal. lia. }
    rewrite IH; cbn [shuttingDown waveformReady waveformProcessed pending polls trace].
    + f_equal. f_equal; [lia|]. cbn [replicate concat]. rewrite app_assoc. reflexivity.
    + reflexivity.
    + intros i Hi. rewrite <- (Hmiss (S i)) by lia. f_equal. lia.
Qed.

(** C7: the order of one capture cycle.  From the loop head, with the
    shut-down flag clear, let the poll answer false [misses] times and then
    true.  After each of the first [j <= misses] passes the thread is back
    at the loop head and has only sampled the flag, polled and slept 1 ms,
    [j] times over: no download, no signal, both events as they were.
    After the pass that polls true it has downloaded once, signaled
    [g_waveformReadyEvent] once, in that order, and stands at
    [g_waveformProcessedEvent.Block()]; while that event is idle no further
    step moves it. *)
Theorem coordinator_cycle_order (w : World) (misses : nat) :
  shuttingDown w = false ->
  (forall i, i < misses -> pending w (polls w + i) = false) ->
  pending w (polls w + misses) = true ->
  (forall j, j <= misses ->
     thread_steps (4 * j) (thread_at at_while, w)
     = (thread_at at_while,
        mkWorld false (waveformReady w) (waveformProcessed w) (pending w)
                (polls w + j) (trace w ++ concat (replicate j retry_pass))))
  /\ let s := thread_steps (4 * misses + 5) (thread_at at_while, w) in
     s.1 = thread_at at_Block
     /\ trace s.2
        = trace w ++ concat (replicate misses retry_pass)
            ++ [sampled false; polled true; downloaded; signal g_waveformReadyEvent]
     /\ waveformReady s.2 = signaled
     /\ waveformProcessed s.2 = waveformProcessed w
     /\ polls s.2 = polls w + misses + 1
     /\ (waveformProcessed w = idle -> forall n, thread_steps n s = s).
Proof.
  intros Hsd Hmiss Hhit. split.
  - intros j Hj. apply retry_passes_steps; [exact Hsd|].
    intros i Hi. apply Hmiss. lia.
  - cbv zeta. rewrite thread_steps_add, retry_passes_steps by assumption.
    rewrite capture_pass_steps; [| reflexivity | exact Hhit].
    cbn [fst snd shuttingDown waveformReady waveformProcessed pending polls trace].
    repeat split.
    + rewrite <- app_assoc. reflexivity.
    + lia.
    + intros Hidle n. apply blocked_steps. exact Hidle.
Qed.

(** The scenario of the spec: the poll answers false three times, then
    true.  From the entry of [WaveformThread] in a fresh world the
    coordinator sleeps three times, downloads once, signals ready once and
    is left blocked on "processed". *)
Lemma coordinator_cycle_order_witness :
  let s := thread_steps (2 + (4 * 3 + 5)) (observe WaveformThread, fresh_world three_misses) in
  s.1 = thread_at at_Block
  /\ trace s.2
     = [sampled false; polled false; slept 1;
        sampled false; polled false; slept 1;
        sampled false; polled false; slept 1;
        sampled false; polled true; downloaded; signal g_waveformReadyEvent]
  /\ waveformReady s.2 = signaled
  /\ forall n, thread_steps n s = s.
Proof.
  cbv zeta. rewrite thread_steps_add.
  change (thread_steps 2 (observe WaveformThread, fresh_world three_misses))
    with (thread_at at_while, fresh_world three_misses).
  destruct (coordinator_cycle_order (fresh_world three_misses) 3) as [_ H].
  - reflexivity.
  - intros i Hi. do 3 (destruct i as [|i]; [reflexivity|]). lia.
  - reflexivity.
  - cbv zeta in H. destruct H as (H1 & H2 & H3 & _ & _ & H6).
    exact (conj H1 (conj H2 (conj H3 (H6 eq_refl)))).
Defined.

(* ----------------------------------------------------------------- *)
(** ** Schedules: the thread interleaved with the rest of the process *)

Lemma turn_point (p : Point) (w : World) (t : Turn) :
  turn (thread_at p, w) t
  = match t with
    | coordinator => (thread_at (next_point p w), next_world p w)
    | environment a => (thread_at p, env_step a w)
    end.
Proof. destruct t; [apply thread_step_point | reflexivity]. Qed.

(** Whatever the schedule, the thread is at one of the control points. *)
Lemma run_point (sch : list Turn) (p : Point) (w : World) :
  exists p' w', run sch (thread_at p, w) = (thread_at p', w').
Proof.
  revert p w. induction sch as [|t sch IH]; intros p w.
  - exists p, w. reflexivity.
  - rewrite run_cons, turn_point. destruct t; apply IH.
Qed.

(** The environment never touches the trace, the poll count or the
    answers of the poll, and never clears the shut-down flag. *)
Lemma env_step_frame (a : EnvAction) (w : World) :
  trace (env_step a w) = trace w
  /\ polls (env_step a w) = polls w
  /\ pending (env_step a w) = pending w
  /\ (shuttingDown w = true -> shuttingDown (env_step a w) = true).
Proof.
  destruct a as [|[]|[]]; cbn; unfold set_event; cbn;
    repeat match goal with |- context [Block ?e] => destruct e; cbn end; auto.
Qed.

Lemma env_step_processed (a : EnvAction) (w : World) :
  a <> env_Signal g_waveformProcessedEvent ->
  waveformProcessed w = idle ->
  waveformProcessed (env_step a w) = idle.
Proof.
  intros Ha Hidle. destruct a as [|[]|[]]; cbn; try congruence.
  - destruct (waveformReady w); cbn; exact Hidle.
  - rewrite Hidle. cbn. exact Hidle.
Qed.

(** While nobody signals [g_waveformProcessedEvent], a thread waiting in
    [Block] stays there and does nothing, however the schedule runs. *)
Lemma awaiting_consumer_stays (sch : list Turn) (w : World) :
  waveformProcessed w = idle ->
  environment (env_Signal g_waveformProcessedEvent) ∉ sch ->
  exists w',
    run sch (thread_at at_Block, w) = (thread_at at_Block, w')
    /\ waveformProcessed w' = idle
    /\ trace w' = trace w
    /\ polls w' = polls w
    /\ (shuttingDown w = true \/ environment set_shuttingDown ∈ sch ->
        shuttingDown w' = true).
Proof.
  revert w. induction sch as [|t sch IH]; intros w Hidle Hno.
  - exists w. repeat split; try reflexivity; try assumption.
    intros [H|H]; [exact H | inversion H].
  - rewrite run_cons, turn_point.
    apply not_elem_of_cons in Hno as [Ht Hno].
    destruct t as [|a].
    + cbn [next_point next_world]. rewrite Hidle.
      destruct (IH w Hidle Hno) as (w' & Hrun & Hi & Ht' & Hp & Hsd).
      exists w'. repeat split; try assumption.
      intros [H|H]; apply Hsd; [left; exact H|].
      apply elem_of_cons in H as [H|H]; [discriminate H | right; exact H].
    + destruct (env_step_frame a w) as (Etr & Epolls & _ & Esd).
      assert (Ha : a <> env_Signal g_waveformProcessedEvent) by congruence.
      destruct (IH (env_step a w) (env_step_processed a w Ha Hidle) Hno)
        as (w' & Hrun & Hi & Ht' & Hp & Hsd).
      exists w'. repeat split; try assumption; try congruence.
      intros [H|H]; apply Hsd.
      * left. apply Esd, H.
      * apply elem_of_cons in H as [H|H]; [| right; exact H].
        left. injection H as <-. reflexivity.
Qed.

(** Woken with the flag set, the thread samples it at the loop head and
    leaves: no poll, no download. *)
Lemma wake_to_shutdown (w : World) :
  waveformProcessed w = signaled ->
  shuttingDown w = true ->
  thread_steps 4 (thread_at at_Block, w)
  = (thread_at at_return,
     mkWorld true (waveformReady w) idle (pending w) (polls w)
             (trace w ++ [woke g_waveformProcessedEvent; sampled true])).
Proof.
  intros Hsig Hsd.
  step_point. rewrite Hsig.
  step_point. step_point.
  cbn [log set_event shuttingDown]. rewrite Hsd.
  step_point. rewrite thread_steps_0. f_equal.
  destruct w; cbn in *. subst. unfold log; cbn.
  rewrite <- !app_assoc. reflexivity.
Qed.

(** The only control point whose step samples the flag is the loop head. *)
Lemma sampled_only_at_while (p : Point) (w : World) (b : bool) :
  trace (thread_step (thread_at p, w)).2 = trace w ++ [sampled b] ->
  p = at_while.
Proof.
  rewrite thread_step_point. cbn [snd].
  destruct p; cbn [next_world]; try reflexivity; intros H.
  all: try (apply (f_equal length) in H; rewrite length_app in H; cbn in H; lia).
  all: try (unfold log in H; cbn in H; apply app_inv_head in H; discriminate H).
  - unfold log in H; cbn in H. destruct (waveformProcessed w); cbn in H.
    + apply (f_equal length) in H; rewrite length_app in H; cbn in H; lia.
    + apply app_inv_head in H; discriminate H.
Qed.

Lemma terminated_point (p : Point) :
  terminated (thread_at p) = bool_decide (p = at_return).
Proof. destruct p; reflexivity. Qed.

(** C8: shut-down is seen only at the loop head.  Let the thread wait in
    [g_waveformProcessedEvent.Block()] with the event idle, and let the
    process set the shut-down flag at some moment while nobody signals
    that event.  Then after every prefix of the schedule the thread is
    still waiting there, not terminated, and has done nothing.  Once the
    event is signaled the thread wakes, samples the flag at the loop head
    and returns; it does not poll again.  No control point other than the
    loop head samples the flag. *)
Theorem shutdown_seen_only_after_processed (w : World) (before after : list Turn) :
  waveformProcessed w = idle ->
  environment (env_Signal g_waveformProcessedEvent) ∉ before ->
  environment (env_Signal g_waveformProcessedEvent) ∉ after ->
  let schedule := before ++ environment set_shuttingDown :: after in
  let s1 := run schedule (thread_at at_Block, w) in
  let s2 :=
    run (environment (env_Signal g_waveformProcessedEvent) :: replicate 4 coordinator) s1 in
  (forall sch, sch `prefix_of` schedule ->
     (run sch (thread_at at_Block, w)).1 = thread_at at_Block
     /\ terminated (run sch (thread_at at_Block, w)).1 = false
     /\ trace (run sch (thread_at at_Block, w)).2 = trace w)
  /\ shuttingDown s1.2 = true
  /\ s2.1 = thread_at at_return
  /\ terminated s2.1 = true
  /\ trace s2.2 = trace w ++ [woke g_waveformProcessedEvent; sampled true]
  /\ polls s2.2 = polls w
  /\ (forall p w' b,
        trace (thread_step (thread_at p, w')).2 = trace w' ++ [sampled b] -> p = at_while).
Proof.
  intros Hidle Hb Ha. cbv zeta.
  assert (Hno : environment (env_Signal g_waveformProcessedEvent)
                ∉ before ++ environment set_shuttingDown :: after).
  { rewrite elem_of_app, elem_of_cons. intros [H|[H|H]]; [tauto | discriminate H | tauto]. }
  split; [| split].
  - intros sch [rest Hsch].
    destruct (awaiting_consumer_stays sch w Hidle) as (w' & Hrun & _ & Htr & _).
    { intros Hin. apply Hno. rewrite Hsch. apply elem_of_app. left. exact Hin. }
    rewrite Hrun. cbn [fst snd]. rewrite terminated_point. auto.
  - destruct (awaiting_consumer_stays _ w Hidle Hno) as (w' & Hrun & _ & _ & _ & Hsd).
    rewrite Hrun. apply Hsd. right.
    apply elem_of_app. right. apply elem_of_cons. left. reflexivity.
  - destruct (awaiting_consumer_stays _ w Hidle Hno) as (w' & Hrun & Hi & Htr & Hp & Hsd).
    rewrite Hrun, run_cons, turn_point.
    fold (thread_steps 4 (thread_at at_Block, env_step (env_Signal g_waveformProcessedEvent) w')).
    rewrite wake_to_shutdown.
    + cbn [fst snd trace polls]. rewrite terminated_point.
      split; [reflexivity|]. split; [reflexivity|].
      split; [cbn; congruence|]. split; [cbn; congruence|].
      apply sampled_only_at_while.
    + reflexivity.
    + cbn. apply Hsd. right.
      apply elem_of_app. right. apply elem_of_cons. left. reflexivity.
Qed.

(** The scenario: the thread has captured once and waits; the consumer
    takes the "ready" signal, the flag is set, the thread is scheduled
    twice in vain; then "processed" is signaled and the thread returns. *)
Lemma shutdown_seen_only_after_processed_witness :
  let w := (thread_steps 7 (observe WaveformThread, fresh_world (λ _, true))).2 in
  let s1 :=
    run [environment (env_Block g_waveformReadyEvent); environment set_shuttingDown;
         coordinator; coordinator] (thread_at at_Block, w) in
  let s2 :=
    run (environment (env_Signal g_waveformProcessedEvent) :: replicate 4 coordinator) s1 in
  s1.1 = thread_at at_Block
  /\ terminated s1.1 = false
  /\ shuttingDown s1.2 = true
  /\ terminated s2.1 = true
  /\ trace s2.2
     = [sampled false; polled true; downloaded; signal g_waveformReadyEvent;
        woke g_waveformProcessedEvent; sampled true].
Proof.
  cbv zeta.
  pose proof (shutdown_seen_only_after_processed
                (thread_steps 7 (observe WaveformThread, fresh_world (λ _, true))).2
                [environment (env_Block g_waveformReadyEvent)]
                [coordinator; coordinator]) as H.
  cbv zeta in H.
  destruct H as (H1 & H2 & H3 & H4 & H5 & _).
  - reflexivity.
  - intros Hin. apply elem_of_cons in Hin as [Hin|Hin]; [discriminate Hin | inversion Hin].
  - intros Hin. repeat (apply elem_of_cons in Hin as [Hin|Hin]; [discriminate Hin|]).
    inversion Hin.
  - destruct (H1 _ (reflexivity _)) as (H1a & H1b & _).
    exact (conj H1a (conj H1b (conj H2 (conj H4 H5)))).
Defined.

(* ----------------------------------------------------------------- *)
(** ** The shape of every trace *)

Lemma trace_inv_step (p : Point) (w : World) :
  trace_inv p w -> trace_inv (next_point p w) (next_world p w).
Proof.
  intros (tr & Hp & Htr). unfold trace_inv.
  destruct p; cbn [next_point next_world pass_so_far] in *;
    try (exists tr; split; [exact Hp | exact Htr]);
    try (exists tr; split; [exact Hp |];
         unfold log, set_event; cbn; rewrite Htr, <- app_assoc; reflexivity).
  - destruct (shuttingDown w); exists tr; (split; [exact Hp|]);
      unfold log; cbn; rewrite Htr, <- app_assoc; reflexivity.
  - destruct (pending w (polls w)); exists tr; (split; [exact Hp|]);
      unfold log; cbn; rewrite Htr, <- app_assoc; reflexivity.
  - exists (tr ++ retry_pass). split; [apply passes_retry, Hp|].
    rewrite app_nil_r. exact Htr.
  - destruct (waveformProcessed w); exists tr; (split; [exact Hp|]).
    + exact Htr.
    + unfold log; cbn. rewrite Htr, <- app_assoc. reflexivity.
  - exists (tr ++ capture_pass). split; [apply passes_capture, Hp|].
    rewrite app_nil_r. exact Htr.
Qed.

Lemma trace_inv_run (sch : list Turn) (p : Point) (w : World) :
  trace_inv p w ->
  exists p' w', run sch (thread_at p, w) = (thread_at p', w') /\ trace_inv p' w'.
Proof.
  revert p w. induction sch as [|t sch IH]; intros p w Hinv.
  - exists p, w. split; [reflexivity | exact Hinv].
  - rewrite run_cons, turn_point. destruct t as [|a].
    + apply IH, trace_inv_step, Hinv.
    + apply IH. destruct Hinv as (tr & Hp & Htr). exists tr. split; [exact Hp|].
      destruct (env_step_frame a w) as (-> & _). exact Htr.
Qed.

Lemma sampled_before_polls_app (prev : option Action) (tr1 tr2 : list Action) :
  sampled_before_polls prev (tr1 ++ tr2)
  = sampled_before_polls prev tr1
    && sampled_before_polls (if last tr1 is Some a then Some a else prev) tr2.
Proof.
  revert prev. induction tr1 as [|a tr1 IH]; intros prev; [reflexivity|].
  cbn [app sampled_before_polls]. rewrite IH, andb_assoc. f_equal.
  destruct tr1 as [|a' tr1]; [reflexivity|].
  rewrite last_cons_cons.
  destruct (last (a' :: tr1)) eqn:E; [reflexivity|].
  apply last_None in E. discriminate E.
Qed.

(** A pass begins with a sample, so what came before it does not matter. *)
Lemma sampled_before_polls_passes (tr : list Action) :
  passes tr -> sampled_before_polls None tr = true.
Proof.
  induction 1 as [|tr _ IH|tr _ IH]; [reflexivity| |];
    rewrite sampled_before_polls_app, IH; destruct (last tr); reflexivity.
Qed.

Lemma sampled_before_polls_inv (p : Point) (w : World) :
  trace_inv p w -> sampled_before_polls None (trace w) = true.
Proof.
  intros (tr & Hp & ->).
  rewrite sampled_before_polls_app, (sampled_before_polls_passes tr Hp).
  destruct p, (last tr); reflexivity.
Qed.

(** What [sampled_before_polls] says, spelled out. *)
Lemma sampled_before_polls_spec (prev : option Action) (tr tr1 tr2 : list Action) (b : bool) :
  sampled_before_polls prev tr = true ->
  tr = tr1 ++ polled b :: tr2 ->
  (tr1 = [] /\ prev = Some (sampled false)) \/ exists tr0, tr1 = tr0 ++ [sampled false].
Proof.
  revert prev tr1. induction tr as [|a tr IH]; intros prev tr1 Hchk Heq.
  - destruct tr1; discriminate Heq.
  - cbn [sampled_before_polls] in Hchk. apply andb_true_iff in Hchk as [Ha Hchk].
    destruct tr1 as [|a1 tr1]; cbn in Heq; injection Heq as -> Heq.
    + left. split; [reflexivity|]. apply bool_decide_eq_true in Ha. exact Ha.
    + right. destruct (IH _ _ Hchk Heq) as [[-> Hprev]|[tr0 ->]].
      * injection Hprev as ->. exists []. reflexivity.
      * exists (a1 :: tr0). reflexivity.
Qed.

(* ----------------------------------------------------------------- *)
(** ** Shut-down during the polling phase *)

Lemma coordinator_turns_cons (t : Turn) (sch : list Turn) :
  coordinator_turns (t :: sch)
  = (if decide (t = coordinator) then 1 else 0) + coordinator_turns sch.
Proof.
  unfold coordinator_turns. rewrite filter_cons.
  destruct (decide (t = coordinator)); reflexivity.
Qed.

(** With the flag set and nothing pending, the thread returns from any
    point of the polling phase as soon as it has been scheduled often
    enough, whatever the environment does in between. *)
Lemma shutdown_path_run (sch : list Turn) (p : Point) (w : World) :
  leaving_phase p = true ->
  shuttingDown w = true ->
  (forall n, polls w <= n -> pending w n = false) ->
  steps_to_return p <= coordinator_turns sch ->
  exists w',
    run sch (thread_at p, w) = (thread_at at_return, w')
    /\ trace w' = trace w ++ shutdown_path p
    /\ polls w' = polls w + count_polls (shutdown_path p).
Proof.
  revert p w. induction sch as [|t sch IH]; intros p w Hp Hsd Hpend Hturns.
  - exists w. cbn in Hturns.
    assert (p = at_return) as ->
      by (destruct p; cbn [steps_to_return] in Hturns; try discriminate Hp; try lia;
          reflexivity).
    cbn. rewrite app_nil_r. split; [reflexivity|]. split; [reflexivity | lia].
  - rewrite run_cons, turn_point. rewrite coordinator_turns_cons in Hturns.
    destruct t as [|a].
    + rewrite decide_True in Hturns by reflexivity.
      pose proof (Hpend (polls w) (le_n _)) as Hnow.
      destruct (IH (next_point p w) (next_world p w)) as (w1 & Hrun & Htr & Hpolls).
      * destruct p; cbn [next_point]; rewrite ?Hsd, ?Hnow; try discriminate Hp; reflexivity.
      * destruct p; cbn; try discriminate Hp; exact Hsd.
      * intros n Hn. destruct p; try discriminate Hp; cbn in Hn |- *; apply Hpend; lia.
      * destruct p; cbn [next_point]; rewrite ?Hsd, ?Hnow; try discriminate Hp;
          cbn [steps_to_return] in Hturns |- *; lia.
      * exists w1. split; [exact Hrun|].
        destruct p; try discriminate Hp;
          cbn [next_point next_world] in Htr, Hpolls;
          rewrite ?Hsd, ?Hnow in Htr, Hpolls; cbn in Htr, Hpolls |- *;
          rewrite Htr, <- ?app_assoc; (split; [reflexivity | lia]).
    + rewrite decide_False in Hturns by discriminate.
      destruct (env_step_frame a w) as (Etr & Epolls & Epend & Esd).
      destruct (IH p (env_step a w) Hp (Esd Hsd)) as (w1 & Hrun & Htr & Hpolls).
      * intros n Hn. rewrite Epend. apply Hpend. lia.
      * exact Hturns.
      * exists w1. split; [exact Hrun|]. split; [congruence | lia].
Qed.

(** C10: the flag is sampled again before every poll.  At any point of the
    polling phase (loop head, poll, 1 ms sleep, [continue]) with the flag
    set and nothing pending from now on, the thread returns once it has
    been scheduled five times, whatever the rest of the process does or
    does not do in between: no event needs to be signaled.  On the way it
    polls at most once more.  And in every run from the entry of
    [WaveformThread], each poll in the trace comes directly after a sample
    of the flag that read false. *)
Theorem shutdown_ends_polling (p : Point) (w : World) (sch : list Turn) :
  polling_phase p = true ->
  shuttingDown w = true ->
  (forall n, polls w <= n -> pending w n = false) ->
  5 <= coordinator_turns sch ->
  let s := run sch (thread_at p, w) in
  s.1 = thread_at at_return
  /\ terminated s.1 = true
  /\ trace s.2 = trace w ++ shutdown_path p
  /\ polls s.2 <= polls w + 1
  /\ count_polls (shutdown_path p) <= 1
  /\ (forall sch0 pend,
        let s0 := run sch0 (observe WaveformThread, fresh_world pend) in
        sampled_before_polls None (trace s0.2) = true
        /\ forall tr1 b tr2,
             trace s0.2 = tr1 ++ polled b :: tr2 ->
             exists tr0, tr1 = tr0 ++ [sampled false]).
Proof.
  intros Hp Hsd Hpend Hturns. cbv zeta.
  destruct (shutdown_path_run sch p w) as (w' & Hrun & Htr & Hpolls);
    try assumption.
  { destruct p; try discriminate Hp; reflexivity. }
  { destruct p; try discriminate Hp; cbn [steps_to_return]; lia. }
  assert (Hle : count_polls (shutdown_path p) <= 1)
    by (destruct p; try discriminate Hp; cbn; lia).
  rewrite Hrun. cbn [fst snd]. rewrite terminated_point.
  split; [reflexivity|]. split; [reflexivity|]. split; [exact Htr|].
  split; [lia|]. split; [exact Hle|].
  intros sch0 pend.
  destruct (trace_inv_run sch0 at_entry (fresh_world pend)) as (p0 & w0 & Hrun0 & Hinv).
  { exists []. split; [constructor | reflexivity]. }
  assert (Hs0 : run sch0 (observe WaveformThread, fresh_world pend) = (thread_at p0, w0))
    by exact Hrun0.
  rewrite Hs0. cbn [snd].
  pose proof (sampled_before_polls_inv p0 w0 Hinv) as Hchk.
  split; [exact Hchk|].
  intros tr1 b tr2 Heq.
  destruct (sampled_before_polls_spec None _ tr1 tr2 b Hchk Heq) as [[_ H]|H];
    [discriminate H | exact H].
Qed.

(** The flag is set while the thread sleeps after a poll that found
    nothing: the thread wakes, samples the flag and returns, with no
    further poll and with both events idle throughout. *)
Lemma shutdown_ends_polling_witness :
  let w := (thread_steps 4 (observe WaveformThread, fresh_world (λ _, false))).2 in
  let s := run [environment set_shuttingDown; coordinator; coordinator; coordinator;
                coordinator; coordinator]
               (thread_at at_sleep_for, w) in
  terminated s.1 = true
  /\ trace s.2 = [sampled false; polled false; slept 1; sampled true]
  /\ waveformProcessed s.2 = idle.
Proof.
  cbv zeta.
  pose proof (shutdown_ends_polling at_sleep_for
                (env_step set_shuttingDown
                   (thread_steps 4 (observe WaveformThread, fresh_world (λ _, false))).2)
                (replicate 5 coordinator)) as H.
  cbv zeta in H.
  destruct H as (_ & H2 & H3 & _).
  - reflexivity.
  - reflexivity.
  - intros n _. reflexivity.
  - vm_compute. lia.
  - split; [exact H2|]. split; [exact H3 | reflexivity].
Defined.

(* ----------------------------------------------------------------- *)
(** ** The hand-shake event *)

(** C9: the event is binary and resets itself.  [Signal] on a signaled
    event changes nothing; [Block] on a signaled event returns at once and
    leaves it idle; so after two [Signal]s in a row one [Block] returns at
    once and the next one does not return: the second wake is not queued.
    Seen from the thread: signaled twice while it waits in
    [g_waveformProcessedEvent.Block()], it wakes once and the event is idle
    again. *)
Theorem Event_signal_coalesces (e : Event) :
  Signal (Signal e) = Signal e
  /\ Signal signaled = signaled
  /\ Block signaled = Some idle
  /\ Block (Signal (Signal e)) = Some idle
  /\ (forall e', Block (Signal (Signal e)) = Some e' -> Block e' = None)
  /\ (forall w,
        let s := run [environment (env_Signal g_waveformProcessedEvent);
                      environment (env_Signal g_waveformProcessedEvent);
                      coordinator] (thread_at at_Block, w) in
        s.1 = thread_at at_end_of_body
        /\ waveformProcessed s.2 = idle
        /\ env_step (env_Block g_waveformProcessedEvent) s.2 = s.2).
Proof.
  split; [reflexivity|]. split; [reflexivity|]. split; [reflexivity|].
  split; [reflexivity|]. split.
  - intros e' H. injection H as <-. reflexivity.
  - intros w. cbv zeta. cbn [run foldl]. rewrite !turn_point.
    cbn [next_point next_world env_step event set_event Signal Block waveformProcessed].
    split; [reflexivity|]. split; reflexivity.
Qed.

(* ----------------------------------------------------------------- *)
(** ** Vector lemmas *)

Section Vector.

Context {A : Type}.
Implicit Types (v : list A) (x : A) (pos : nat).


Lemma vector_insert_perm pos x v : vector_insert pos x v ≡ₚ x :: v.
Proof.
  unfold vector_insert. rewrite <- Permutation_middle, take_drop. reflexivity.
Qed.

Lemma vector_insert_length pos x v :
  length (vector_insert pos x v) = S (length v).
Proof. rewrite vector_insert_perm. reflexivity. Qed.


End Vector.

Lemma erase_first_absent (d : StreamDescriptor) (v : list StreamDescriptor) :
  d ∉ v -> erase_first d v = v.
Proof.
  induction v as [|s v IH]; [reflexivity|]. intros Hd.
  apply not_elem_of_cons in Hd as [Hne Hd]. cbn.
  rewrite decide_False by congruence. rewrite IH by exact Hd. reflexivity.
Qed.

Lemma erase_first_perm (d : StreamDescriptor) (v : list StreamDescriptor) :
  d ∈ v -> v ≡ₚ d :: erase_first d v.
Proof.
  induction v as [|s v IH]; intros Hd; [inversion Hd|]. cbn.
  destruct (decide (s = d)) as [->|Hne]; [reflexivity|].
  apply elem_of_cons in Hd as [->|Hd]; [congruence|].
  rewrite (IH Hd) at 1. apply Permutation_swap.
Qed.

Lemma erase_first_length (d : StreamDescriptor) (v : list StreamDescriptor) :
  d ∈ v -> S (length (erase_first d v)) = length v.
Proof.
  intros Hd. apply erase_first_perm, Permutation_length in Hd.
  cbn in Hd. congruence.
Qed.

Lemma erase_first_sublist (d : StreamDescriptor) (v : list StreamDescriptor) :
  erase_first d v `sublist_of` v.
Proof.
  induction v as [|s v IH]; [reflexivity|]. cbn.
  destruct (decide (s = d)); [apply sublist_cons | apply sublist_skip]; [reflexivity | exact IH].
Qed.

Lemma erase_first_NoDup (d : StreamDescriptor) (v : list StreamDescriptor) :
  NoDup v -> NoDup (erase_first d v) /\ d ∉ erase_first d v.
Proof.
  intros Hnd. split.
  - eapply sublist_NoDup; [exact Hnd | apply erase_first_sublist].
  - destruct (decide (d ∈ v)) as [Hin|Hout].
    + pose proof (erase_first_perm d v Hin) as Hperm.
      rewrite Hperm in Hnd. apply NoDup_cons in Hnd as [H _]. exact H.
    + rewrite erase_first_absent by exact Hout. exact Hout.
Qed.

Lemma erase_first_subseteq (d : StreamDescriptor) (v : list StreamDescriptor) :
  erase_first d v ⊆ v.
Proof. apply sublist_subseteq, erase_first_sublist. Qed.

(* ----------------------------------------------------------------- *)
(** ** The sequence and the set *)

Lemma HasStream_true (st : MeasurementsDialog) (d : StreamDescriptor) :
  HasStream st d = true <-> d ∈ m_streamset st.
Proof. unfold HasStream. apply bool_decide_eq_true. Qed.

Lemma HasStream_false (st : MeasurementsDialog) (d : StreamDescriptor) :
  HasStream st d = false <-> d ∉ m_streamset st.
Proof. unfold HasStream. apply bool_decide_eq_false. Qed.

Lemma coherent_new : coherent MeasurementsDialog_new.
Proof. split; [constructor | reflexivity]. Qed.

Lemma coherent_elem_of (st : MeasurementsDialog) (d : StreamDescriptor) :
  coherent st -> d ∈ m_streams st <-> d ∈ m_streamset st.
Proof. intros [_ <-]. rewrite elem_of_list_to_set. reflexivity. Qed.

(** [AddStream] keeps the sequence and the set in step. *)
Lemma coherent_AddStream (d : StreamDescriptor) (st : MeasurementsDialog) :
  coherent st -> coherent (AddStream d st).
Proof.
  intros Hco. unfold AddStream.
  destruct (HasStream st d) eqn:Hhas; [exact Hco|].
  apply HasStream_false in Hhas.
  rewrite <- (coherent_elem_of st d Hco) in Hhas.
  destruct Hco as [Hnd Hset]. split; cbn.
  - apply NoDup_app. split; [exact Hnd|]. split; [| apply NoDup_singleton].
    intros x Hx Hx'. apply list_elem_of_singleton in Hx'. congruence.
  - rewrite list_to_set_app_L, Hset. cbn. set_solver.
Qed.

Lemma list_to_set_erase_first (d : StreamDescriptor) (v : list StreamDescriptor) :
  {[d]} ∪ list_to_set (erase_first d v) =@{gset StreamDescriptor} {[d]} ∪ list_to_set v.
Proof.
  destruct (decide (d ∈ v)) as [Hin|Hout].
  - rewrite (list_to_set_perm_L v (d :: erase_first d v)) by apply erase_first_perm, Hin.
    cbn. set_solver.
  - rewrite erase_first_absent by exact Hout. reflexivity.
Qed.

(** So does the move of [DoRender]. *)
Lemma coherent_MoveStream (d : StreamDescriptor) (dest : nat) (st st' : MeasurementsDialog) :
  coherent st -> MoveStream d dest st = Returns st' -> coherent st'.
Proof.
  intros [Hnd Hset]. unfold MoveStream.
  destruct (decide _) as [Hdest|]; [|discriminate]. intros [= <-].
  destruct (erase_first_NoDup d _ Hnd) as [Hnd' Hout].
  split; cbn.
  - rewrite vector_insert_perm. apply NoDup_cons. split; assumption.
  - rewrite (list_to_set_perm_L _ _ (vector_insert_perm _ _ _)). cbn.
    rewrite list_to_set_erase_first, Hset. reflexivity.
Qed.

(** [RemoveStream] does when the key it erases is the descriptor it
    removes. *)
Lemma coherent_RemoveStream (as_descriptor : option nat -> StreamDescriptor)
    (i : nat) (s : StreamDescriptor) (st st' : MeasurementsDialog) :
  coherent st ->
  m_streams st !! i = Some s ->
  as_descriptor (dynamic_cast_OscilloscopeChannel (m_channel s)) = s ->
  RemoveStream as_descriptor i st = Returns st' ->
  coherent st'.
Proof.
  intros [Hnd Hset] Hi Hkey. unfold RemoveStream. rewrite Hi, Hkey. intros [= <-].
  pose proof (delete_take_drop (m_streams st) i) as Hdel.
  pose proof (take_drop_middle _ _ _ Hi) as Hmid.
  assert (Hperm : m_streams st ≡ₚ s :: delete i (m_streams st)).
  { rewrite Hdel, <- Hmid at 1. rewrite <- Permutation_middle. reflexivity. }
  rewrite Hperm in Hnd. apply NoDup_cons in Hnd as [Hout Hnd'].
  split; cbn; [exact Hnd'|].
  rewrite <- Hset, (list_to_set_perm_L _ _ Hperm). cbn.
  set_solver.
Qed.

Lemma AddStream_present (d : StreamDescriptor) (st : MeasurementsDialog) :
  d ∈ m_streamset st -> AddStream d st = st.
Proof.
  intros Hin. unfold AddStream. rewrite (proj2 (HasStream_true st d) Hin). reflexivity.
Qed.

Lemma AddStream_absent (d : StreamDescriptor) (st : MeasurementsDialog) :
  d ∉ m_streamset st ->
  AddStream d st
  = mkDialog (m_streams st ++ [d]) ({[d]} ∪ m_streamset st)
             (call_AddRef (dynamic_cast_OscilloscopeChannel (m_channel d)) (ref_calls st)).
Proof.
  intros Hout. unfold AddStream. rewrite (proj2 (HasStream_false st d) Hout). reflexivity.
Qed.

(** C1: the sequence and the set do not stay in step.  [RemoveStream]
    erases from the set the key made from the channel, not the descriptor
    it takes out of the sequence: after adding stream 1 of an oscilloscope
    channel and removing row 0 the sequence is empty and the set still
    holds the descriptor, so adding it again does nothing. *)
Theorem RemoveStream_leaves_descriptor_in_set :
  exists st,
    perform_all stream0_of_channel [Add chanA_stream1; Remove 0] MeasurementsDialog_new
    = Returns st
    /\ m_streams st = []
    /\ chanA_stream1 ∈ m_streamset st
    /\ ~ coherent st
    /\ AddStream chanA_stream1 st = st.
Proof.
  exists (mkDialog [] (({[chanA_stream1]} ∪ ∅) ∖ {[stream0_of_channel (Some 1)]})
                   [AddRef 1; Release 1]).
  assert (Hin : chanA_stream1
                ∈@{gset StreamDescriptor}
                ({[chanA_stream1]} ∪ ∅) ∖ {[stream0_of_channel (Some 1)]}).
  { apply elem_of_difference. split; [set_solver|].
    intros H. apply elem_of_singleton in H. discriminate H. }
  split.
  - cbn [perform_all perform and_then].
    rewrite AddStream_absent by (cbn [m_streamset MeasurementsDialog_new]; set_solver). reflexivity.
  - split; [reflexivity|]. split; [exact Hin|]. split.
    + intros [_ Hset]. cbn in Hset. rewrite <- Hset in Hin. set_solver.
    + apply AddStream_present. exact Hin.
Qed.

(** The same whatever key the conversion makes of a channel: two streams
    of one channel cannot both be that key. *)
Lemma RemoveStream_incoherent_any_conversion
    (as_descriptor : option nat -> StreamDescriptor) :
  exists st,
    perform_all as_descriptor
      [Add chanA; Add chanA_stream1; Remove 1; Remove 0] MeasurementsDialog_new
    = Returns st
    /\ m_streams st = []
    /\ ~ coherent st.
Proof.
  exists (mkDialog []
            ((({[chanA_stream1]} ∪ ({[chanA]} ∪ ∅)) ∖ {[as_descriptor (Some 1)]})
               ∖ {[as_descriptor (Some 1)]})
            [AddRef 1; AddRef 1; Release 1; Release 1]).
  split.
  - cbn [perform_all perform and_then].
    rewrite (AddStream_absent chanA MeasurementsDialog_new)
      by (cbn [m_streamset MeasurementsDialog_new]; set_solver).
    rewrite (AddStream_absent chanA_stream1).
    2:{ cbn. rewrite elem_of_union, elem_of_singleton. intros [H|H]; [discriminate H | set_solver]. }
    reflexivity.
  - split; [reflexivity|].
    intros [_ Hset]. cbn in Hset.
    destruct (decide (as_descriptor (Some 1) = chanA)) as [Heq|Hne].
    + assert (chanA_stream1 ∈@{gset StreamDescriptor} ∅); [|set_solver].
      rewrite Hset, Heq.
      rewrite !elem_of_difference, !elem_of_union, !elem_of_singleton.
      split; [split; [auto|]|]; discriminate.
    + assert (chanA ∈@{gset StreamDescriptor} ∅); [|set_solver].
      rewrite Hset.
      rewrite !elem_of_difference, !elem_of_union, !elem_of_singleton.
      split; [split; [auto|]|]; congruence.
Qed.

(* ----------------------------------------------------------------- *)
(** ** RemoveStream out of range *)

(** C2 as stated fails: on the empty dialog [RemoveStream(0)] indexes
    [m_streams] out of range; the call is undefined and reports nothing. *)
Lemma RemoveStream_reports_no_error :
  length (m_streams MeasurementsDialog_new) <= 0
  /\ RemoveStream stream0_of_channel 0 MeasurementsDialog_new = Undefined
  /\ ~ exists e, RemoveStream stream0_of_channel 0 MeasurementsDialog_new
                 = Throws e MeasurementsDialog_new.
Proof.
  split; [reflexivity|]. split; [reflexivity|]. intros [e H]. discriminate H.
Qed.

(** C2, amended: [RemoveStream] checks nothing.  At a position that is not
    an index of [m_streams] the call is undefined: it neither returns nor
    fails with an error, and nothing is promised about the registry. *)
Theorem RemoveStream_out_of_range_undefined
    (as_descriptor : option nat -> StreamDescriptor) (st : MeasurementsDialog) (i : nat) :
  length (m_streams st) <= i ->
  RemoveStream as_descriptor i st = Undefined
  /\ (forall st', RemoveStream as_descriptor i st <> Returns st')
  /\ (forall e st', RemoveStream as_descriptor i st <> Throws e st').
Proof.
  intros Hi. unfold RemoveStream.
  rewrite (lookup_ge_None_2 _ _ Hi).
  split; [reflexivity|]. split; intros; discriminate.
Qed.

Lemma RemoveStream_out_of_range_undefined_witness :
  RemoveStream stream0_of_channel 1 (AddStream chanA MeasurementsDialog_new) = Undefined.
Proof.
  apply (RemoveStream_out_of_range_undefined stream0_of_channel
           (AddStream chanA MeasurementsDialog_new) 1).
  vm_compute. lia.
Defined.

(** At an index of [m_streams] the call returns. *)
Lemma RemoveStream_in_range
    (as_descriptor : option nat -> StreamDescriptor) (st : MeasurementsDialog) (i : nat) :
  i < length (m_streams st) ->
  exists st', RemoveStream as_descriptor i st = Returns st'
              /\ S (length (m_streams st')) = length (m_streams st).
Proof.
  intros Hi. unfold RemoveStream.
  destruct (lookup_lt_is_Some_2 _ _ Hi) as [s Hs]. rewrite Hs.
  eexists. split; [reflexivity|]. cbn.
  rewrite length_delete by (rewrite Hs; eauto). lia.
Qed.

(** The indices the row loop of [DoRender] hands on are rows of the table. *)
Lemma render_rows_bounds (ui : FrameInput) (n a : nat) (acc : RowLoop) :
  (forall ms d, moving acc = Some (ms, d) -> d < a) ->
  (forall i, deleteRow acc = Some i -> i < a) ->
  (forall ms d, moving (foldl (render_row ui) acc (seq a n)) = Some (ms, d) -> d < a + n)
  /\ (forall i, deleteRow (foldl (render_row ui) acc (seq a n)) = Some i -> i < a + n).
Proof.
  revert a acc. induction n as [|n IH]; intros a acc Hm Hd.
  - rewrite Nat.add_0_r. split; assumption.
  - cbn [seq foldl]. replace (a + S n) with (S a + n) by lia. apply IH.
    + intros ms d. unfold render_row; cbn.
      destruct (accepted_payload (row_input ui a)).
      * intros [= _ <-]. lia.
      * intros H. apply Hm in H. lia.
    + intros i. unfold render_row; cbn.
      destruct (delete_clicked (row_input ui a)).
      * intros [= <-]. lia.
      * intros H. apply Hd in H. lia.
Qed.

Lemma erase_first_length_le (d : StreamDescriptor) (v : list StreamDescriptor) :
  length v <= S (length (erase_first d v)).
Proof.
  destruct (decide (d ∈ v)) as [Hin|Hout].
  - rewrite (erase_first_length d v Hin). lia.
  - rewrite erase_first_absent by exact Hout. lia.
Qed.

Lemma MoveStream_row (d : StreamDescriptor) (dest : nat) (st : MeasurementsDialog) :
  dest < length (m_streams st) ->
  exists st', MoveStream d dest st = Returns st'
              /\ length (m_streams st) <= length (m_streams st').
Proof.
  intros Hdest. unfold MoveStream.
  pose proof (erase_first_length_le d (m_streams st)) as Hle.
  rewrite decide_True by lia.
  eexists. split; [reflexivity|]. cbn. rewrite vector_insert_length. lia.
Qed.

(** [DoRender], the only caller of [RemoveStream] and of the move, never
    runs into undefined behaviour: the indices it passes are rows it has
    just drawn. *)
Lemma DoRender_returns (as_descriptor : option nat -> StreamDescriptor)
    (ui : FrameInput) (st : MeasurementsDialog) :
  exists st', DoRender as_descriptor ui st = Returns st'.
Proof.
  unfold DoRender. destruct (BeginTable ui); [|eauto].
  destruct (render_rows_bounds ui (length (m_streams st)) 0 (mkLoop None None))
    as [Hm Hd]; [discriminate | discriminate |].
  fold (render_rows ui st) in Hm, Hd. cbn [Nat.add] in Hm, Hd.
  assert (Hmove : exists st1,
             match moving (render_rows ui st) with
             | Some (moveStream, moveDest) => MoveStream moveStream moveDest st
             | None => Returns st
             end = Returns st1
             /\ length (m_streams st) <= length (m_streams st1)).
  { destruct (moving (render_rows ui st)) as [[ms dest]|].
    - apply MoveStream_row. eapply Hm. reflexivity.
    - exists st. split; [reflexivity | lia]. }
  destruct Hmove as (st1 & -> & Hlen). cbn [and_then].
  destruct (deleteRow (render_rows ui st)) as [i|]; [|eauto].
  specialize (Hd i eq_refl).
  destruct (RemoveStream_in_range as_descriptor
              match m_streams st1, blank_row_payload ui with
              | [], Some stream => AddStream stream st1
              | _, _ => st1
              end i) as (st' & Hst' & _); [|eauto].
  destruct (m_streams st1) eqn:E; [cbn in Hlen; lia|].
  rewrite E. cbn in *. lia.
Qed.

(* ----------------------------------------------------------------- *)
(** ** Reference counts *)

Lemma count_calls_snoc (r x : RefCall) (calls : list RefCall) :
  count_calls r (calls ++ [x])
  = count_calls r calls + (if decide (x = r) then 1 else 0).
Proof.
  unfold count_calls. rewrite filter_app, length_app. f_equal.
  rewrite filter_cons, filter_nil. destruct (decide (x = r)); reflexivity.
Qed.

(** One request changes the calls made on channel [c] by exactly what the
    request is: one [AddRef] for an [Add] that is not a no-op, one
    [Release] for a [Remove] that returns, nothing for a move. *)
Lemma perform_ref_calls (as_descriptor : option nat -> StreamDescriptor)
    (r : Request) (st st' : MeasurementsDialog) (c : nat) :
  perform as_descriptor r st = Returns st' ->
  count_calls (AddRef c) (ref_calls st')
  = count_calls (AddRef c) (ref_calls st) + (if adds_to c r st then 1 else 0)
  /\ count_calls (Release c) (ref_calls st')
     = count_calls (Release c) (ref_calls st) + (if removes_from c r st then 1 else 0).
Proof.
  destruct r as [d|i|d dest]; cbn [perform adds_to removes_from].
  - intros [= <-]. unfold AddStream.
    destruct (HasStream st d); [rewrite andb_false_r; lia|].
    rewrite andb_true_r. cbn [ref_calls].
    destruct d as [[|c'|a] k];
      cbn [m_channel dynamic_cast_OscilloscopeChannel call_AddRef];
      rewrite ?bool_decide_eq_false_2 by discriminate; try lia.
    rewrite !count_calls_snoc.
    rewrite (decide_False (P := AddRef c' = Release c)) by discriminate.
    destruct (decide (c' = c)) as [->|Hne].
    + rewrite bool_decide_eq_true_2, decide_True by reflexivity. lia.
    + rewrite bool_decide_eq_false_2, decide_False by congruence. lia.
  - unfold RemoveStream. destruct (m_streams st !! i) as [s|]; [|discriminate].
    intros [= <-]. cbn [ref_calls].
    destruct s as [[|c'|a] k];
      cbn [m_channel dynamic_cast_OscilloscopeChannel call_Release];
      rewrite ?bool_decide_eq_false_2 by discriminate; try lia.
    rewrite !count_calls_snoc.
    rewrite (decide_False (P := Release c' = AddRef c)) by discriminate.
    destruct (decide (c' = c)) as [->|Hne].
    + rewrite bool_decide_eq_true_2, decide_True by reflexivity. lia.
    + rewrite bool_decide_eq_false_2, decide_False by congruence. lia.
  - unfold MoveStream. destruct (decide _); [|discriminate].
    intros [= <-]. cbn [ref_calls]. lia.
Qed.




(* ----------------------------------------------------------------- *)
(** ** Adding a descriptor twice *)

(** Adding a descriptor that the set holds does nothing: the dialog is the
    same afterwards, sequence, set and reference calls.  On a fresh
    dialog, adding [d] twice leaves one row, and when [d] is a stream of an
    oscilloscope channel one [AddRef] on that channel: the dialog holds 1
    reference, not 2. *)
Theorem AddStream_twice (st : MeasurementsDialog) (d : StreamDescriptor) :
  HasStream st d = true ->
  AddStream d st = st
  /\ AddStream d (AddStream d MeasurementsDialog_new) = AddStream d MeasurementsDialog_new
  /\ m_streams (AddStream d (AddStream d MeasurementsDialog_new)) = [d]
  /\ (forall c,
        m_channel d = scope_channel c ->
        ref_calls (AddStream d (AddStream d MeasurementsDialog_new)) = [AddRef c]
        /\ held (AddStream d (AddStream d MeasurementsDialog_new)) c = 1%Z).
Proof.
  intros Hhas.
  assert (Hone : AddStream d MeasurementsDialog_new
                 = mkDialog [d] ({[d]} ∪ ∅)
                            (call_AddRef (dynamic_cast_OscilloscopeChannel (m_channel d)) []))
    by (apply AddStream_absent; cbn [m_streamset MeasurementsDialog_new]; set_solver).
  assert (Htwo : AddStream d (AddStream d MeasurementsDialog_new)
                 = AddStream d MeasurementsDialog_new)
    by (apply AddStream_present; rewrite Hone; cbn [m_streamset]; set_solver).
  split; [apply AddStream_present, HasStream_true, Hhas|].
  split; [exact Htwo|]. rewrite Htwo, Hone. cbn [m_streams ref_calls].
  split; [reflexivity|].
  intros c Hc. rewrite Hc. cbn [dynamic_cast_OscilloscopeChannel call_AddRef app].
  split; [reflexivity|].
  unfold held, count_calls. cbn [ref_calls].
  rewrite !filter_cons, !filter_nil, decide_True, decide_False by (reflexivity || discriminate).
  reflexivity.
Qed.

Lemma AddStream_twice_witness :
  AddStream chanA (AddStream chanA MeasurementsDialog_new) = AddStream chanA MeasurementsDialog_new
  /\ length (m_streams (AddStream chanA (AddStream chanA MeasurementsDialog_new))) = 1
  /\ held (AddStream chanA (AddStream chanA MeasurementsDialog_new)) 1 = 1%Z.
Proof.
  destruct (AddStream_twice (AddStream chanA MeasurementsDialog_new) chanA)
    as (H1 & _ & H3 & H4).
  - reflexivity.
  - split; [exact H1|]. split; [rewrite H3; reflexivity|].
    exact (proj2 (H4 1 eq_refl)).
Defined.

(** In a dialog whose sequence and set agree, a descriptor of the sequence
    is in the set, and adding it again does nothing. *)
Lemma AddStream_listed (st : MeasurementsDialog) (d : StreamDescriptor) :
  coherent st -> d ∈ m_streams st -> AddStream d st = st.
Proof.
  intros Hco Hin. apply AddStream_present, (coherent_elem_of st d Hco), Hin.
Qed.

(** C4: adding a descriptor that is already listed is not always a no-op.
    [AddStream] looks for the descriptor in the set, and [RemoveStream]
    can have erased from the set a descriptor that is still listed: after
    adding streams 0 and 1 of one oscilloscope channel and removing row 1,
    stream 0 is in row 0 and not in the set; adding it again lists it a
    second time and makes a second [AddRef] on its channel, against the
    comment "Don't allow duplicates". *)
Theorem AddStream_after_RemoveStream_lists_twice :
  exists st,
    perform_all stream0_of_channel [Add chanA; Add chanA_stream1; Remove 1]
                MeasurementsDialog_new
    = Returns st
    /\ m_streams st = [chanA]
    /\ chanA ∈ m_streams st
    /\ HasStream st chanA = false
    /\ AddStream chanA st <> st
    /\ m_streams (AddStream chanA st) = [chanA; chanA]
    /\ held st 1 = 1%Z
    /\ held (AddStream chanA st) 1 = 2%Z.
Proof.
  eexists. split; [vm_compute; reflexivity|].
  split; [reflexivity|].
  split; [apply (bool_decide_unpack _); vm_compute; exact I|].
  split; [vm_compute; reflexivity|].
  split; [intros H; apply (f_equal m_streams) in H; vm_compute in H; discriminate H|].
  split; [vm_compute; reflexivity|].
  split; vm_compute; reflexivity.
Qed.

(* ----------------------------------------------------------------- *)
(** ** Moving a descriptor *)

Lemma erase_first_app_absent (d : StreamDescriptor) (v1 v2 : list StreamDescriptor) :
  d ∉ v1 -> erase_first d (v1 ++ d :: v2) = v1 ++ v2.
Proof.
  induction v1 as [|s v1 IH]; intros Hout; cbn.
  - rewrite decide_True by reflexivity. reflexivity.
  - apply not_elem_of_cons in Hout as [Hne Hout].
    rewrite decide_False by congruence. rewrite IH by exact Hout. reflexivity.
Qed.






(** Moving a descriptor that is not in the sequence inserts it and puts it
    in the set, and makes no call on its channel. *)
Lemma MoveStream_absent (st : MeasurementsDialog) (d : StreamDescriptor) (dest : nat) :
  d ∉ m_streams st ->
  dest <= length (m_streams st) ->
  MoveStream d dest st
  = Returns (mkDialog (vector_insert dest d (m_streams st))
                      ({[d]} ∪ m_streamset st)
                      (ref_calls st)).
Proof.
  intros Hout Hdest. unfold MoveStream.
  rewrite erase_first_absent by exact Hout.
  rewrite decide_True by exact Hdest. reflexivity.
Qed.

(** [AddStream] followed by the move differs from the move alone in the
    [AddRef] on the channel, and in nothing else. *)
Lemma MoveStream_absent_vs_AddStream (st : MeasurementsDialog) (d : StreamDescriptor)
    (dest c : nat) :
  d ∉ m_streams st ->
  d ∉ m_streamset st ->
  dest <= length (m_streams st) ->
  m_channel d = scope_channel c ->
  exists st1 st2,
    MoveStream d dest st = Returns st1
    /\ MoveStream d dest (AddStream d st) = Returns st2
    /\ m_streams st1 = m_streams st2
    /\ m_streamset st1 = m_streamset st2
    /\ ref_calls st1 = ref_calls st
    /\ ref_calls st2 = ref_calls st ++ [AddRef c]
    /\ held st1 c = held st c
    /\ held st2 c = (held st c + 1)%Z.
Proof.
  intros Hseq Hset Hdest Hc.
  rewrite (MoveStream_absent st d dest Hseq Hdest).
  rewrite (AddStream_absent d st Hset). unfold MoveStream. cbn [m_streams m_streamset ref_calls].
  rewrite (erase_first_app_absent d (m_streams st) []) by exact Hseq.
  rewrite app_nil_r, decide_True by exact Hdest.
  do 2 eexists. split; [reflexivity|]. split; [reflexivity|].
  cbn [m_streams m_streamset ref_calls]. rewrite Hc. cbn [dynamic_cast_OscilloscopeChannel call_AddRef].
  split; [reflexivity|]. split; [set_solver|]. split; [reflexivity|].
  split; [reflexivity|]. split; [reflexivity|].
  unfold held. cbn [ref_calls]. rewrite !count_calls_snoc.
  rewrite decide_True, decide_False by (reflexivity || discriminate). lia.
Qed.

(** C6: moving a descriptor that is not yet in the registry is not
    [AddStream] followed by a move.  With [chanA] listed, dropping the
    stream [chanB] of another oscilloscope channel on row 0 lists it first
    and puts it in the set, as adding and moving would; but no [AddRef] is
    made on its channel, where adding makes one.  The destructor then
    releases a reference the dialog never took. *)
Theorem MoveStream_absent_takes_no_reference :
  let st := AddStream chanA MeasurementsDialog_new in
  exists st1 st2,
    MoveStream chanB 0 st = Returns st1
    /\ and_then (Returns (AddStream chanB st)) (MoveStream chanB 0) = Returns st2
    /\ m_streams st1 = [chanB; chanA]
    /\ m_streams st2 = [chanB; chanA]
    /\ chanB ∈ m_streamset st1
    /\ m_streamset st1 = m_streamset st2
    /\ held st1 2 = 0%Z
    /\ held st2 2 = 1%Z
    /\ held (MeasurementsDialog_destroy st1) 2 = (-1)%Z.
Proof.
  cbv zeta.
  assert (Hst : AddStream chanA MeasurementsDialog_new
                = mkDialog [chanA] ({[chanA]} ∪ ∅) [AddRef 1])
    by (apply AddStream_absent; cbn [m_streamset MeasurementsDialog_new]; set_solver).
  rewrite Hst.
  assert (Hseq : chanB ∉ [chanA])
    by (intros H; apply list_elem_of_singleton in H; discriminate H).
  assert (Hset : chanB ∉@{gset StreamDescriptor} {[chanA]} ∪ ∅).
  { rewrite elem_of_union, elem_of_singleton. intros [H|H]; [discriminate H | set_solver]. }
  destruct (MoveStream_absent_vs_AddStream
              (mkDialog [chanA] ({[chanA]} ∪ ∅) [AddRef 1]) chanB 0 2 Hseq Hset)
    as (st1 & st2 & H1 & H2 & Hs & Hset' & Hc1 & Hc2 & _ & _);
    [cbn; lia | reflexivity |].
  exists st1, st2. cbn [and_then].
  split; [exact H1|]. split; [exact H2|].
  rewrite (MoveStream_absent (mkDialog [chanA] ({[chanA]} ∪ ∅) [AddRef 1]) chanB 0 Hseq)
    in H1 by (cbn; lia).
  injection H1 as <-. cbn [m_streams m_streamset ref_calls] in *.
  split; [reflexivity|]. split; [rewrite <- Hs; reflexivity|].
  split; [set_solver|]. split; [exact Hset'|].
  split; [reflexivity|].
  split; [unfold held; rewrite Hc2; reflexivity|].
  reflexivity.
Qed.

(* ----------------------------------------------------------------- *)
(** ** The same inputs, through DoRender *)

(** The requests of C1 and C6 as frames of the user interface: they are
    inputs [DoRender] really receives. *)
Lemma DoRender_drop_then_delete :
  and_then (DoRender stream0_of_channel (drop_on_blank_row chanA_stream1)
                     MeasurementsDialog_new)
           (DoRender stream0_of_channel delete_row0)
  = perform_all stream0_of_channel [Add chanA_stream1; Remove 0] MeasurementsDialog_new.
Proof. vm_compute. reflexivity. Qed.

Lemma DoRender_drop_on_row :
  DoRender stream0_of_channel (drop_on_row0 chanB) (AddStream chanA MeasurementsDialog_new)
  = MoveStream chanB 0 (AddStream chanA MeasurementsDialog_new).
Proof. vm_compute. reflexivity. Qed.

(* ================================================================= *)
(** * Part III: further properties of the code *)
(* ================================================================= *)

(* ----------------------------------------------------------------- *)
(** ** DoRender: the row loop *)

Lemma render_rows_snoc (ui : FrameInput) (acc : RowLoop) (n : nat) :
  foldl (render_row ui) acc (seq 0 (S n))
  = render_row ui (foldl (render_row ui) acc (seq 0 n)) n.
Proof. rewrite seq_S, foldl_app. reflexivity. Qed.

Lemma render_rows_deleteRow (ui : FrameInput) (n i : nat) :
  deleteRow (foldl (render_row ui) (mkLoop None None) (seq 0 n)) = Some i
  <-> i < n /\ delete_clicked (row_input ui i) = true
      /\ forall j, i < j < n -> delete_clicked (row_input ui j) = false.
Proof.
  induction n as [|n IH].
  - cbn. split; [discriminate | lia].
  - rewrite render_rows_snoc. unfold render_row at 1. cbn [deleteRow].
    destruct (delete_clicked (row_input ui n)) eqn:Hn.
    + split.
      * intros [= <-]. split; [lia|]. split; [exact Hn|]. intros j Hj. lia.
      * intros (Hi & Hc & Hlast). destruct (decide (i = n)) as [->|Hne]; [reflexivity|].
        rewrite (Hlast n) in Hn by lia. discriminate Hn.
    + rewrite IH. split.
      * intros (Hi & Hc & Hlast). split; [lia|]. split; [exact Hc|].
        intros j Hj. destruct (decide (j = n)) as [->|Hne]; [exact Hn | apply Hlast; lia].
      * intros (Hi & Hc & Hlast).
        assert (i <> n) by (intros ->; congruence).
        split; [lia|]. split; [exact Hc|]. intros j Hj. apply Hlast. lia.
Qed.

Lemma render_rows_moving (ui : FrameInput) (n i : nat) (d : StreamDescriptor) :
  moving (foldl (render_row ui) (mkLoop None None) (seq 0 n)) = Some (d, i)
  <-> i < n /\ accepted_payload (row_input ui i) = Some d
      /\ forall j, i < j < n -> accepted_payload (row_input ui j) = None.
Proof.
  induction n as [|n IH].
  - cbn. split; [discriminate | lia].
  - rewrite render_rows_snoc. unfold render_row at 1. cbn [moving].
    destruct (accepted_payload (row_input ui n)) as [d'|] eqn:Hn.
    + split.
      * intros [= <- <-]. split; [lia|]. split; [exact Hn|]. intros j Hj. lia.
      * intros (Hi & Hc & Hlast). destruct (decide (i = n)) as [->|Hne]; [congruence|].
        rewrite (Hlast n) in Hn by lia. discriminate Hn.
    + rewrite IH. split.
      * intros (Hi & Hc & Hlast). split; [lia|]. split; [exact Hc|].
        intros j Hj. destruct (decide (j = n)) as [->|Hne]; [exact Hn | apply Hlast; lia].
      * intros (Hi & Hc & Hlast).
        assert (i <> n) by (intros ->; congruence).
        split; [lia|]. split; [exact Hc|]. intros j Hj. apply Hlast. lia.
Qed.

(** X1: the row loop of [DoRender] keeps the last row that reports.  The
    row to delete is the highest row whose "Delete" was chosen, and the
    move is the drop accepted by the highest row that accepted one; both
    are rows of the table. *)
Theorem render_rows_last_row_wins (ui : FrameInput) (st : MeasurementsDialog) (i : nat) :
  (deleteRow (render_rows ui st) = Some i
   <-> i < length (m_streams st)
       /\ delete_clicked (row_input ui i) = true
       /\ forall j, i < j < length (m_streams st) ->
                    delete_clicked (row_input ui j) = false)
  /\ (forall d,
        moving (render_rows ui st) = Some (d, i)
        <-> i < length (m_streams st)
            /\ accepted_payload (row_input ui i) = Some d
            /\ forall j, i < j < length (m_streams st) ->
                         accepted_payload (row_input ui j) = None).
Proof.
  unfold render_rows. split; [apply render_rows_deleteRow|].
  intros d. apply render_rows_moving.
Qed.

Lemma render_rows_quiet (ui : FrameInput) (st : MeasurementsDialog) :
  (forall i, i < length (m_streams st) -> quiet ui i) ->
  render_rows ui st = mkLoop None None.
Proof.
  intros Hq. unfold render_rows.
  destruct (foldl _ _ _) as [[[d i]|] [k|]] eqn:E; try reflexivity.
  all: exfalso.
  1,2: pose proof (proj1 (render_rows_moving ui (length (m_streams st)) i d)) as Hm;
       rewrite E in Hm; destruct (Hm eq_refl) as (Hi & Hc & _);
       destruct (Hq i Hi) as [Ha _]; congruence.
  pose proof (proj1 (render_rows_deleteRow ui (length (m_streams st)) k)) as Hd.
  rewrite E in Hd. destruct (Hd eq_refl) as (Hi & Hc & _).
  destruct (Hq k Hi) as [_ Ha]. congruence.
Qed.

(** X2: a frame without user input changes nothing.  When no row of the
    table accepts a drop or has "Delete" chosen, and the blank row of an
    empty table accepts no drop, [DoRender] returns the dialog as it was:
    same rows, same set, no call on any channel. *)
Theorem DoRender_quiet_frame (as_descriptor : option nat -> StreamDescriptor)
    (ui : FrameInput) (st : MeasurementsDialog) :
  (forall i, i < length (m_streams st) -> quiet ui i) ->
  (m_streams st = [] -> blank_row_payload ui = None) ->
  DoRender as_descriptor ui st = Returns st.
Proof.
  intros Hq Hblank. unfold DoRender.
  destruct (BeginTable ui); [|reflexivity].
  rewrite (render_rows_quiet ui st Hq). cbn [moving deleteRow and_then].
  destruct (m_streams st) eqn:E; [|reflexivity].
  rewrite (Hblank eq_refl). reflexivity.
Qed.

Lemma DoRender_quiet_frame_witness :
  DoRender stream0_of_channel (mkFrame true (λ _, quiet_row) (Some chanB))
           (AddStream chanA MeasurementsDialog_new)
  = Returns (AddStream chanA MeasurementsDialog_new).
Proof.
  apply (DoRender_quiet_frame stream0_of_channel).
  - intros i _. split; reflexivity.
  - intros H. vm_compute in H. discriminate H.
Defined.

(* ----------------------------------------------------------------- *)
(** ** DoRender: one frame *)

Lemma AddStream_length (d : StreamDescriptor) (st : MeasurementsDialog) :
  length (m_streams st) <= length (m_streams (AddStream d st)) <= S (length (m_streams st)).
Proof.
  unfold AddStream. destruct (HasStream st d); cbn; [lia|].
  rewrite length_app. cbn. lia.
Qed.

Lemma MoveStream_length (d : StreamDescriptor) (dest : nat) (st st' : MeasurementsDialog) :
  MoveStream d dest st = Returns st' ->
  length (m_streams st) <= length (m_streams st') <= S (length (m_streams st))
  /\ m_streams st' <> [].
Proof.
  unfold MoveStream. destruct (decide _); [|discriminate]. intros [= <-]. cbn.
  rewrite vector_insert_length.
  pose proof (erase_first_length_le d (m_streams st)) as H1.
  pose proof (sublist_length _ _ (erase_first_sublist d (m_streams st))) as H2.
  split; [lia|]. intros H. apply (f_equal length) in H.
  rewrite vector_insert_length in H. discriminate H.
Qed.

Lemma blank_row_ignored (st1 : MeasurementsDialog) (payload : option StreamDescriptor) :
  m_streams st1 <> [] ->
  match m_streams st1, payload with
  | [], Some stream => AddStream stream st1
  | _, _ => st1
  end = st1.
Proof. intros Hne. destruct (m_streams st1); [congruence | reflexivity]. Qed.

(** X3: whatever the user interface reports, [DoRender] returns: the
    indices it passes to the move and to [RemoveStream] are rows it has
    just drawn, so it never indexes [m_streams] out of range.  One frame
    changes the number of rows by at most one. *)
Theorem DoRender_returns_row_count (as_descriptor : option nat -> StreamDescriptor)
    (ui : FrameInput) (st : MeasurementsDialog) :
  exists st',
    DoRender as_descriptor ui st = Returns st'
    /\ length (m_streams st') <= S (length (m_streams st))
    /\ length (m_streams st) <= S (length (m_streams st')).
Proof.
  unfold DoRender. destruct (BeginTable ui); [|exists st; split; [reflexivity | lia]].
  cbv zeta.
  destruct (render_rows_bounds ui (length (m_streams st)) 0 (mkLoop None None))
    as [Hm Hd]; [discriminate | discriminate |].
  fold (render_rows ui st) in Hm, Hd. cbn [Nat.add] in Hm, Hd.
  destruct (moving (render_rows ui st)) as [[ms dest]|] eqn:Emove.
  - destruct (MoveStream_row ms dest st (Hm ms dest eq_refl)) as (st1 & Hst1 & _).
    rewrite Hst1. cbn [and_then].
    destruct (MoveStream_length _ _ _ _ Hst1) as [Hlen Hne].
    rewrite (blank_row_ignored st1 _ Hne).
    destruct (deleteRow (render_rows ui st)) as [i|] eqn:Edel.
    + destruct (RemoveStream_in_range as_descriptor st1 i) as (st' & Hst' & Hlen').
      { specialize (Hd i eq_refl). lia. }
      exists st'. split; [exact Hst' | lia].
    + exists st1. split; [reflexivity | lia].
  - cbn [and_then].
    destruct (deleteRow (render_rows ui st)) as [i|] eqn:Edel.
    + specialize (Hd i eq_refl).
      assert (Hne : m_streams st <> []) by (intros E; rewrite E in Hd; cbn in Hd; lia).
      rewrite (blank_row_ignored st _ Hne).
      destruct (RemoveStream_in_range as_descriptor st i Hd) as (st' & Hst' & Hlen').
      exists st'. split; [exact Hst' | lia].
    + eexists. split; [reflexivity|].
      destruct (m_streams st) eqn:E; [|rewrite E; lia].
      destruct (blank_row_payload ui) as [d|]; [|rewrite E; lia].
      pose proof (AddStream_length d st) as H. rewrite E in H. cbn in *. lia.
Qed.

(** X4: the blank row of an empty table is the way a first stream gets in.
    On a dialog with no rows, a drop accepted by the blank row is
    [AddStream] of the dropped stream: it is listed, put in the set and its
    channel is referenced, unless the set already holds it. *)
Theorem DoRender_drop_on_blank (as_descriptor : option nat -> StreamDescriptor)
    (ui : FrameInput) (st : MeasurementsDialog) (d : StreamDescriptor) :
  m_streams st = [] ->
  BeginTable ui = true ->
  blank_row_payload ui = Some d ->
  DoRender as_descriptor ui st = Returns (AddStream d st).
Proof.
  intros Hempty Htable Hdrop. unfold DoRender, render_rows.
  rewrite Htable, Hempty. cbn [length seq foldl moving deleteRow and_then].
  rewrite Hempty, Hdrop. reflexivity.
Qed.

Lemma DoRender_drop_on_blank_witness :
  exists st,
    DoRender stream0_of_channel (drop_on_blank_row chanA) MeasurementsDialog_new = Returns st
    /\ m_streams st = [chanA]
    /\ ref_calls st = [AddRef 1].
Proof.
  exists (AddStream chanA MeasurementsDialog_new).
  split; [|split; reflexivity].
  apply (DoRender_drop_on_blank stream0_of_channel); reflexivity.
Defined.

(** X5: on a table that has rows [DoRender] never takes a reference.
    Whatever is dropped or deleted in the frame, the dialog has made no
    further [AddRef] call afterwards: a stream dropped on a row is listed
    without its channel being referenced. *)
Theorem DoRender_rows_never_AddRef (as_descriptor : option nat -> StreamDescriptor)
    (ui : FrameInput) (st st' : MeasurementsDialog) (c : nat) :
  m_streams st <> [] ->
  DoRender as_descriptor ui st = Returns st' ->
  count_calls (AddRef c) (ref_calls st') = count_calls (AddRef c) (ref_calls st).
Proof.
  intros Hrows. unfold DoRender. destruct (BeginTable ui); [|intros [= <-]; reflexivity].
  cbv zeta.
  assert (Hstage : forall st1 : MeasurementsDialog,
             m_streams st1 <> [] ->
             match deleteRow (render_rows ui st) with
             | Some rowToDelete =>
                 RemoveStream as_descriptor rowToDelete
                   match m_streams st1, blank_row_payload ui with
                   | [], Some stream => AddStream stream st1
                   | _, _ => st1
                   end
             | None =>
                 Returns match m_streams st1, blank_row_payload ui with
                         | [], Some stream => AddStream stream st1
                         | _, _ => st1
                         end
             end = Returns st' ->
             count_calls (AddRef c) (ref_calls st') = count_calls (AddRef c) (ref_calls st1)).
  { intros st1 Hne. rewrite (blank_row_ignored st1 _ Hne).
    destruct (deleteRow (render_rows ui st)) as [i|]; [|intros [= <-]; reflexivity].
    intros Hrm.
    destruct (perform_ref_calls as_descriptor (Remove i) st1 st' c Hrm) as [Ha _].
    cbn [adds_to] in Ha. lia. }
  destruct (moving (render_rows ui st)) as [[ms dest]|].
  - destruct (MoveStream ms dest st) as [st1| |] eqn:Hmove; cbn [and_then]; try discriminate.
    intros Hrest. rewrite (Hstage st1 (proj2 (MoveStream_length _ _ _ _ Hmove)) Hrest).
    unfold MoveStream in Hmove. destruct (decide _); [|discriminate].
    injection Hmove as <-. reflexivity.
  - cbn [and_then]. apply Hstage, Hrows.
Qed.

Lemma DoRender_rows_never_AddRef_witness :
  exists st',
    DoRender stream0_of_channel (drop_on_row0 chanB) (AddStream chanA MeasurementsDialog_new)
    = Returns st'
    /\ m_streams st' = [chanB; chanA]
    /\ count_calls (AddRef 2) (ref_calls st') = 0.
Proof.
  destruct (DoRender_returns stream0_of_channel (drop_on_row0 chanB)
              (AddStream chanA MeasurementsDialog_new)) as (st' & Hst').
  exists st'. split; [exact Hst'|]. split.
  - vm_compute in Hst'. injection Hst' as <-. reflexivity.
  - rewrite (DoRender_rows_never_AddRef stream0_of_channel (drop_on_row0 chanB)
               (AddStream chanA MeasurementsDialog_new) st' 2);
      [reflexivity | intros H; vm_compute in H; discriminate H | exact Hst'].
Defined.

(* ----------------------------------------------------------------- *)
(** ** The destructor and the references the rows stand for *)

Lemma listed_perm (c : nat) (v v' : list StreamDescriptor) :
  v ≡ₚ v' ->
  length (filter (λ d, m_channel d = scope_channel c) v)
  = length (filter (λ d, m_channel d = scope_channel c) v').
Proof. intros ->. reflexivity. Qed.

Lemma destroy_calls (c : nat) (v : list StreamDescriptor) (calls : list RefCall) :
  count_calls (AddRef c)
    (foldl (λ calls s, call_Release (dynamic_cast_OscilloscopeChannel (m_channel s)) calls)
           calls v)
  = count_calls (AddRef c) calls
  /\ count_calls (Release c)
       (foldl (λ calls s, call_Release (dynamic_cast_OscilloscopeChannel (m_channel s)) calls)
              calls v)
     = count_calls (Release c) calls
       + length (filter (λ d, m_channel d = scope_channel c) v).
Proof.
  revert calls. induction v as [|s v IH]; intros calls; cbn [foldl].
  - rewrite filter_nil. cbn. lia.
  - destruct (IH (call_Release (dynamic_cast_OscilloscopeChannel (m_channel s)) calls))
      as [-> ->].
    rewrite filter_cons.
    destruct s as [[|c'|a] k]; cbn [m_channel dynamic_cast_OscilloscopeChannel call_Release];
      try (rewrite decide_False by discriminate; lia).
    rewrite !count_calls_snoc.
    rewrite (decide_False (P := Release c' = AddRef c)) by discriminate.
    destruct (decide (c' = c)) as [->|Hne].
    + rewrite !decide_True by reflexivity. cbn [length]. lia.
    + rewrite !decide_False by congruence. lia.
Qed.

(** X6: the destructor releases one reference for each row.  It empties
    the list, makes no [AddRef], and on every oscilloscope channel makes
    as many [Release] calls as the list has rows showing a stream of that
    channel, be they several streams of the channel or, after the defect
    of C1, the same stream twice. *)
Theorem destructor_releases_each_row (st : MeasurementsDialog) (c : nat) :
  m_streams (MeasurementsDialog_destroy st) = []
  /\ count_calls (AddRef c) (ref_calls (MeasurementsDialog_destroy st))
     = count_calls (AddRef c) (ref_calls st)
  /\ count_calls (Release c) (ref_calls (MeasurementsDialog_destroy st))
     = count_calls (Release c) (ref_calls st) + listed_on c st
  /\ held (MeasurementsDialog_destroy st) c = (held st c - Z.of_nat (listed_on c st))%Z.
Proof.
  destruct (destroy_calls c (m_streams st) (ref_calls st)) as [Ha Hr].
  unfold held, listed_on, MeasurementsDialog_destroy. cbn [m_streams ref_calls].
  rewrite Ha, Hr. repeat split; lia.
Qed.

(** One request changes the rows of channel [c] as it changes the
    references held on it, provided a move is of a listed stream. *)
Lemma perform_listed (as_descriptor : option nat -> StreamDescriptor)
    (r : Request) (st st' : MeasurementsDialog) (c : nat) :
  perform as_descriptor r st = Returns st' ->
  (forall d dest, r = Move d dest -> d ∈ m_streams st) ->
  listed_on c st' + (if removes_from c r st then 1 else 0)
  = listed_on c st + (if adds_to c r st then 1 else 0).
Proof.
  unfold listed_on.
  destruct r as [d|i|d dest]; cbn [perform adds_to removes_from]; intros Hr Hmove.
  - injection Hr as <-. unfold AddStream.
    destruct (HasStream st d); [rewrite andb_false_r; lia|].
    rewrite andb_true_r. cbn [m_streams].
    rewrite filter_app, length_app, filter_cons, filter_nil.
    destruct (decide (m_channel d = scope_channel c)) as [Hc|Hc].
    + rewrite bool_decide_eq_true_2 by exact Hc. cbn. lia.
    + rewrite bool_decide_eq_false_2 by exact Hc. cbn. lia.
  - unfold RemoveStream in Hr. destruct (m_streams st !! i) as [s|] eqn:Hi; [|discriminate].
    injection Hr as <-. cbn [m_streams].
    rewrite (listed_perm c _ _ (delete_Permutation _ _ _ Hi)), filter_cons.
    destruct (decide (m_channel s = scope_channel c)) as [Hc|Hc].
    + rewrite bool_decide_eq_true_2 by exact Hc. cbn. lia.
    + rewrite bool_decide_eq_false_2 by exact Hc. cbn. lia.
  - unfold MoveStream in Hr. destruct (decide _); [|discriminate].
    injection Hr as <-. cbn [m_streams].
    rewrite (listed_perm c (vector_insert _ _ _) (m_streams st)); [lia|].
    rewrite vector_insert_perm. symmetry. apply erase_first_perm, (Hmove d dest eq_refl).
Qed.

Lemma perform_all_balance (as_descriptor : option nat -> StreamDescriptor)
    (rs : list Request) (st st' : MeasurementsDialog) (c : nat) :
  perform_all as_descriptor rs st = Returns st' ->
  moves_listed as_descriptor rs st = true ->
  (held st' c - Z.of_nat (listed_on c st') = held st c - Z.of_nat (listed_on c st))%Z.
Proof.
  revert st. induction rs as [|r rs IH]; intros st.
  - intros [= <-] _. reflexivity.
  - cbn [perform_all moves_listed].
    destruct (perform as_descriptor r st) as [st1| |] eqn:Hr; try discriminate.
    cbn [and_then]. intros Hrs Hml. apply andb_true_iff in Hml as [Hm Hml].
    rewrite (IH _ Hrs Hml).
    destruct (perform_ref_calls _ _ _ _ c Hr) as [Ha Hl].
    assert (Hlisted : listed_on c st1 + (if removes_from c r st then 1 else 0)
                      = listed_on c st + (if adds_to c r st then 1 else 0)).
    { apply (perform_listed as_descriptor r st st1 c Hr).
      intros d dest ->. apply bool_decide_eq_true in Hm. exact Hm. }
    unfold held. rewrite Ha, Hl. lia.
Qed.

(** X7: rows and references stay in balance, and the destructor settles
    the account.  After any sequence of [AddStream], [RemoveStream] and
    moves of listed streams on a new dialog, the dialog holds on every
    oscilloscope channel exactly as many references as the table has rows
    of that channel, and after the destructor it holds none. *)
Theorem references_match_rows (as_descriptor : option nat -> StreamDescriptor)
    (rs : list Request) (st : MeasurementsDialog) (c : nat) :
  perform_all as_descriptor rs MeasurementsDialog_new = Returns st ->
  moves_listed as_descriptor rs MeasurementsDialog_new = true ->
  held st c = Z.of_nat (listed_on c st)
  /\ held (MeasurementsDialog_destroy st) c = 0%Z.
Proof.
  intros Hrun Hml.
  pose proof (perform_all_balance _ _ _ _ c Hrun Hml) as Hbal.
  destruct (destroy_calls c (m_streams st) (ref_calls st)) as [Ha Hr].
  assert (Hheld : held st c = Z.of_nat (listed_on c st)).
  { change (held MeasurementsDialog_new c) with 0%Z in Hbal.
    change (listed_on c MeasurementsDialog_new) with 0 in Hbal. lia. }
  split; [exact Hheld|].
  unfold held, listed_on, MeasurementsDialog_destroy in *. cbn [m_streams ref_calls].
  rewrite Ha, Hr. lia.
Qed.

(** Two streams of channel 1 and one of channel 2 are added, one is moved,
    one is removed: two rows of channel 1 are left and two references are
    held on it. *)
Lemma references_match_rows_witness :
  exists st,
    perform_all stream0_of_channel
      [Add chanA; Add chanB; Add chanA_stream1; Move chanA_stream1 0; Remove 2]
      MeasurementsDialog_new = Returns st
    /\ m_streams st = [chanA_stream1; chanA]
    /\ held st 1 = 2%Z
    /\ held (MeasurementsDialog_destroy st) 1 = 0%Z.
Proof.
  eexists. split; [vm_compute; reflexivity|]. split; [reflexivity|].
  apply (references_match_rows stream0_of_channel
           [Add chanA; Add chanB; Add chanA_stream1; Move chanA_stream1 0; Remove 2]).
  - vm_compute. reflexivity.
  - vm_compute. reflexivity.
Defined.

(* ----------------------------------------------------------------- *)
(** ** When the sequence and the set do stay in step *)

Lemma perform_keyed (as_descriptor : option nat -> StreamDescriptor)
    (r : Request) (st st' : MeasurementsDialog) :
  coherent st ->
  Forall (keyed as_descriptor) (m_streams st) ->
  request_keyed as_descriptor r ->
  perform as_descriptor r st = Returns st' ->
  coherent st' /\ Forall (keyed as_descriptor) (m_streams st').
Proof.
  intros Hco Hall Hr.
  destruct r as [d|i|d dest]; cbn [perform request_keyed] in *.
  - intros [= <-]. split; [apply coherent_AddStream, Hco|].
    unfold AddStream. destruct (HasStream st d); [exact Hall|]. cbn [m_streams].
    apply Forall_app. split; [exact Hall|]. apply Forall_singleton, Hr.
  - intros Hrm. pose proof Hrm as Hrm'. unfold RemoveStream in Hrm'.
    destruct (m_streams st !! i) as [s|] eqn:Hi; [|discriminate].
    injection Hrm' as <-. cbn [m_streams].
    split; [|apply Forall_delete, Hall].
    apply (coherent_RemoveStream as_descriptor i s st _ Hco Hi); [|exact Hrm].
    exact (proj1 (Forall_lookup _ _) Hall i s Hi).
  - intros Hmv. split; [exact (coherent_MoveStream d dest st st' Hco Hmv)|].
    unfold MoveStream in Hmv. destruct (decide _); [|discriminate].
    injection Hmv as <-. cbn [m_streams].
    rewrite vector_insert_perm. apply Forall_cons. split; [exact Hr|].
    rewrite Forall_forall in Hall |- *. intros x Hx.
    apply Hall, (erase_first_subseteq d), Hx.
Qed.

(** X8: the sequence and the set agree as long as [RemoveStream] erases
    the right key.  After any sequence of requests on a new dialog in which
    every added or moved descriptor is the key the conversion makes of its
    channel (with scopehal's constructor: stream 0 of an oscilloscope
    channel), the sequence has no duplicates and holds exactly the
    descriptors of the set. *)
Theorem coherent_for_keyed_streams (as_descriptor : option nat -> StreamDescriptor)
    (rs : list Request) (st : MeasurementsDialog) :
  Forall (request_keyed as_descriptor) rs ->
  perform_all as_descriptor rs MeasurementsDialog_new = Returns st ->
  coherent st /\ Forall (keyed as_descriptor) (m_streams st).
Proof.
  assert (Hgen : forall st0,
             coherent st0 -> Forall (keyed as_descriptor) (m_streams st0) ->
             Forall (request_keyed as_descriptor) rs ->
             perform_all as_descriptor rs st0 = Returns st ->
             coherent st /\ Forall (keyed as_descriptor) (m_streams st)).
  { induction rs as [|r rs IH]; intros st0 Hco Hall Hrs.
    - intros [= <-]. split; assumption.
    - apply Forall_cons in Hrs as [Hr Hrs]. cbn [perform_all].
      destruct (perform as_descriptor r st0) as [st1| |] eqn:Hp; try discriminate.
      cbn [and_then].
      destruct (perform_keyed as_descriptor r st0 st1 Hco Hall Hr Hp) as [Hco1 Hall1].
      apply (IH st1 Hco1 Hall1 Hrs). }
  apply Hgen; [apply coherent_new | constructor].
Qed.

Lemma coherent_for_keyed_streams_witness :
  exists st,
    perform_all stream0_of_channel
      [Add chanA; Add chanB; Move chanC 1; Remove 0; Add chanB; Move chanB 1]
      MeasurementsDialog_new = Returns st
    /\ m_streams st = [chanC; chanB]
    /\ coherent st.
Proof.
  eexists. split; [vm_compute; reflexivity|]. split; [reflexivity|].
  apply (coherent_for_keyed_streams stream0_of_channel
           [Add chanA; Add chanB; Move chanC 1; Remove 0; Add chanB; Move chanB 1]).
  - repeat constructor.
  - vm_compute. reflexivity.
Defined.

(* ----------------------------------------------------------------- *)
(** ** Adding a stream and removing it again *)

Lemma delete_last {A : Type} (v : list A) (x : A) : delete (length v) (v ++ [x]) = v.
Proof. rewrite delete_middle. apply app_nil_r. Qed.

(** X9: adding a new stream and deleting its row undoes the addition.
    The stream goes to the bottom row; [RemoveStream] of that row gives
    back the rows as they were and leaves the same number of references
    held on every channel.  The set is as it was too when the key
    [RemoveStream] erases is the descriptor. *)
Theorem AddStream_RemoveStream_round_trip (as_descriptor : option nat -> StreamDescriptor)
    (st : MeasurementsDialog) (d : StreamDescriptor) :
  HasStream st d = false ->
  m_streams (AddStream d st) !! length (m_streams st) = Some d
  /\ exists st',
       RemoveStream as_descriptor (length (m_streams st)) (AddStream d st) = Returns st'
       /\ m_streams st' = m_streams st
       /\ (forall c, held st' c = held st c)
       /\ (keyed as_descriptor d -> m_streamset st' = m_streamset st).
Proof.
  intros Hnew. apply HasStream_false in Hnew.
  rewrite (AddStream_absent d st Hnew). cbn [m_streams].
  assert (Hlast : (m_streams st ++ [d]) !! length (m_streams st) = Some d)
    by apply list_lookup_middle, eq_refl.
  split; [exact Hlast|].
  unfold RemoveStream. cbn [m_streams m_streamset ref_calls]. rewrite Hlast.
  eexists. split; [reflexivity|]. cbn [m_streams m_streamset ref_calls].
  split; [apply delete_last|]. split.
  - intros c. unfold held. cbn [ref_calls].
    destruct (dynamic_cast_OscilloscopeChannel (m_channel d)) as [c'|];
      cbn [call_AddRef call_Release]; [|reflexivity].
    rewrite !count_calls_snoc.
    rewrite (decide_False (P := AddRef c' = Release c)) by discriminate.
    rewrite (decide_False (P := Release c' = AddRef c)) by discriminate.
    destruct (decide (c' = c)) as [->|Hne].
    + rewrite !decide_True by reflexivity. lia.
    + rewrite !decide_False by congruence. lia.
  - intros Hkey. unfold keyed in Hkey. rewrite Hkey. set_solver.
Qed.

Lemma AddStream_RemoveStream_round_trip_witness :
  exists st',
    RemoveStream stream0_of_channel 1 (AddStream chanB (AddStream chanA MeasurementsDialog_new))
    = Returns st'
    /\ m_streams st' = [chanA]
    /\ held st' 2 = 0%Z.
Proof.
  destruct (AddStream_RemoveStream_round_trip stream0_of_channel
              (AddStream chanA MeasurementsDialog_new) chanB)
    as (_ & st' & Hrm & Hrows & Hheld & _).
  - vm_compute. reflexivity.
  - exists st'. split; [exact Hrm|]. split; [exact Hrows|]. rewrite Hheld. reflexivity.
Defined.

(* ----------------------------------------------------------------- *)
(** ** WaveformThread: what every run looks like *)

(** X10: the shape of every trace.  Under any schedule and whatever the
    polls answer, the thread started at the entry of [WaveformThread] is
    at one of the control points, and what it has done so far is a
    sequence of whole passes through the loop body, each either a retry
    (sample, poll false, sleep 1 ms) or a capture (sample, poll true,
    download, signal ready, wake from processed), followed by the part of
    the current pass that lies behind that control point. *)
Theorem every_trace_is_passes (sch : list Turn) (pend : nat -> bool) :
  exists p w tr,
    run sch (observe WaveformThread, fresh_world pend) = (thread_at p, w)
    /\ passes tr
    /\ trace w = tr ++ pass_so_far p.
Proof.
  destruct (trace_inv_run sch at_entry (fresh_world pend)) as (p & w & Hrun & tr & Hp & Htr).
  { exists []. split; [constructor | reflexivity]. }
  exists p, w, tr. split; [exact Hrun|]. split; [exact Hp | exact Htr].
Qed.

Lemma count_action_app (a : Action) (tr1 tr2 : list Action) :
  count_action a (tr1 ++ tr2) = count_action a tr1 + count_action a tr2.
Proof. unfold count_action. rewrite filter_app, length_app. reflexivity. Qed.

Lemma count_action_snoc (a b : Action) (tr : list Action) :
  count_action a (tr ++ [b]) = count_action a tr + (if decide (b = a) then 1 else 0).
Proof.
  rewrite count_action_app. f_equal. unfold count_action.
  rewrite filter_cons, filter_nil. destruct (decide (b = a)); reflexivity.
Qed.

(** In whole passes there are as many downloads, ready signals and wakes
    as polls that answered true. *)
Lemma passes_counts (tr : list Action) :
  passes tr ->
  count_action downloaded tr = count_action (polled true) tr
  /\ count_action (signal g_waveformReadyEvent) tr = count_action (polled true) tr
  /\ count_action (woke g_waveformProcessedEvent) tr = count_action (polled true) tr
  /\ count_action (signal g_waveformProcessedEvent) tr = 0
  /\ count_action (woke g_waveformReadyEvent) tr = 0.
Proof.
  induction 1 as [|tr _ IH|tr _ IH]; [repeat split| |];
    destruct IH as (H1 & H2 & H3 & H4 & H5); rewrite !count_action_app, H1, H2, H3, H4, H5;
    repeat split.
Qed.

(** X11: the hand-shake alternates.  At every moment of every run, the
    coordinator has woken from "processed" at most as often as it has
    signaled "ready", signaled "ready" at most as often as it has
    downloaded, downloaded at most as often as a poll answered true, and a
    poll has answered true at most once more than it has woken: it never
    downloads a second waveform before the first has been acknowledged.
    It never signals "processed" and never waits on "ready". *)
Theorem handshake_alternates (sch : list Turn) (pend : nat -> bool) :
  let tr := trace (run sch (observe WaveformThread, fresh_world pend)).2 in
  count_action (woke g_waveformProcessedEvent) tr
    <= count_action (signal g_waveformReadyEvent) tr
  /\ count_action (signal g_waveformReadyEvent) tr <= count_action downloaded tr
  /\ count_action downloaded tr <= count_action (polled true) tr
  /\ count_action (polled true) tr <= count_action (woke g_waveformProcessedEvent) tr + 1
  /\ count_action (signal g_waveformProcessedEvent) tr = 0
  /\ count_action (woke g_waveformReadyEvent) tr = 0.
Proof.
  cbv zeta.
  destruct (trace_inv_run sch at_entry (fresh_world pend)) as (p & w & Hrun & tr & Hp & Htr).
  { exists []. split; [constructor | reflexivity]. }
  assert (Hs : run sch (observe WaveformThread, fresh_world pend) = (thread_at p, w))
    by exact Hrun.
  rewrite Hs. cbn [snd]. rewrite Htr, !count_action_app.
  destruct (passes_counts tr Hp) as (-> & -> & -> & -> & ->).
  generalize (count_action (polled true) tr). intros k.
  destruct p;
    repeat match goal with
      | |- context [count_action ?a (pass_so_far ?q)] =>
          let v := eval vm_compute in (count_action a (pass_so_far q)) in
          change (count_action a (pass_so_far q)) with v
      end;
    lia.
Qed.

(* ----------------------------------------------------------------- *)
(** ** WaveformThread and the consumer *)

Lemma count_woke_next_world (p : Point) (w : World) :
  count_action (woke g_waveformProcessedEvent) (trace (next_world p w))
  + pending_wakes (waveformProcessed (next_world p w))
  = count_action (woke g_waveformProcessedEvent) (trace w)
    + pending_wakes (waveformProcessed w).
Proof.
  destruct p; cbn [next_world]; try reflexivity;
    try (unfold log, next_poll, set_event; cbn [trace waveformProcessed];
         rewrite count_action_snoc, decide_False by discriminate; lia).
  destruct (waveformProcessed w) eqn:E; [rewrite E; reflexivity|].
  unfold log, set_event; cbn [trace waveformProcessed].
  rewrite count_action_snoc, decide_True by reflexivity. cbn. lia.
Qed.

Lemma env_signals_cons (ev : EventName) (t : Turn) (sch : list Turn) :
  env_signals ev (t :: sch)
  = (if decide (t = environment (env_Signal ev)) then 1 else 0) + env_signals ev sch.
Proof.
  unfold env_signals. rewrite filter_cons.
  destruct (decide (t = environment (env_Signal ev))); reflexivity.
Qed.

Lemma wakes_bounded_by_signals (sch : list Turn) (p : Point) (w : World) :
  count_action (woke g_waveformProcessedEvent) (trace (run sch (thread_at p, w)).2)
  + pending_wakes (waveformProcessed (run sch (thread_at p, w)).2)
  <= count_action (woke g_waveformProcessedEvent) (trace w)
     + pending_wakes (waveformProcessed w)
     + env_signals g_waveformProcessedEvent sch.
Proof.
  revert p w. induction sch as [|t sch IH]; intros p w.
  - cbn. lia.
  - rewrite run_cons, turn_point, env_signals_cons.
    destruct t as [|a].
    + rewrite decide_False by discriminate.
      specialize (IH (next_point p w) (next_world p w)).
      rewrite count_woke_next_world in IH. exact IH.
    + specialize (IH p (env_step a w)).
      destruct (env_step_frame a w) as (Etr & _). rewrite Etr in IH.
      assert (Hev : pending_wakes (waveformProcessed (env_step a w))
                    <= pending_wakes (waveformProcessed w)
                       + (if decide (environment a
                                     = environment (env_Signal g_waveformProcessedEvent))
                          then 1 else 0)).
      { destruct a as [|[]|[]]; cbn [env_step event set_event Signal Block waveformProcessed].
        - lia.
        - lia.
        - rewrite decide_True by reflexivity. cbn. lia.
        - destruct (waveformReady w); cbn; lia.
        - destruct (waveformProcessed w) eqn:E; cbn; rewrite ?E; cbn; lia. }
      lia.
Qed.

(** X12: the coordinator cannot run ahead of the consumer.  Under any
    schedule, from the entry of [WaveformThread] in a fresh world, the
    thread has got past [g_waveformProcessedEvent.Block()] at most as
    often as the rest of the process has signaled that event. *)
Theorem wakes_need_signals (sch : list Turn) (pend : nat -> bool) :
  count_action (woke g_waveformProcessedEvent)
    (trace (run sch (observe WaveformThread, fresh_world pend)).2)
  <= env_signals g_waveformProcessedEvent sch.
Proof.
  pose proof (wakes_bounded_by_signals sch at_entry (fresh_world pend)) as H.
  cbn [fresh_world trace waveformProcessed pending_wakes] in H.
  change (count_action (woke g_waveformProcessedEvent) []) with 0 in H.
  assert (Hs : (run sch (observe WaveformThread, fresh_world pend))
               = run sch (thread_at at_entry, fresh_world pend)) by reflexivity.
  rewrite Hs. lia.
Qed.

(* ----------------------------------------------------------------- *)
(** ** WaveformThread: shutting down from anywhere *)

(** X13: a last "processed" signal lets the thread go.  Wherever the
    thread is, once the shut-down flag is set and
    [g_waveformProcessedEvent] is signaled, eight steps of its own bring
    it to its return: it finishes the pass it is in, polling and
    downloading at most once more, and starts no new pass (it never again
    samples the flag as clear). *)
Theorem teardown_from_anywhere (p : Point) (w : World) :
  shuttingDown w = true ->
  waveformProcessed w = signaled ->
  let s := thread_steps 8 (thread_at p, w) in
  s.1 = thread_at at_return
  /\ terminated s.1 = true
  /\ polls s.2 <= polls w + 1
  /\ exists done,
       trace s.2 = trace w ++ done
       /\ count_action downloaded done <= 1
       /\ count_action (sampled false) done = 0.
Proof.
  intros Hsd Hsig. cbv zeta.
  destruct w as [sd ready processed pend n tr]. cbn in Hsd, Hsig. subst sd processed.
  unfold thread_steps. cbn [replicate run foldl turn].
  rewrite !thread_step_point.
  destruct (pend n) eqn:E;
    destruct p;
    cbn [next_point next_world log next_poll set_event shuttingDown waveformReady
         waveformProcessed pending polls trace fst snd];
    rewrite ?E;
    cbn [next_point next_world log next_poll set_event shuttingDown waveformReady
         waveformProcessed pending polls trace fst snd];
    (split; [reflexivity|]); (split; [reflexivity|]); (split; [lia|]);
    rewrite <- ?app_assoc;
    first [ eexists; split; [reflexivity|]; split; vm_compute; [lia | reflexivity]
          | exists []; split; [symmetry; apply app_nil_r|]; split; vm_compute;
            [lia | reflexivity] ].
Qed.

(** The thread has captured and waits; the flag is set and "processed" is
    signaled: it wakes, samples the flag and returns. *)
Lemma teardown_from_anywhere_witness :
  let w := (thread_steps 7 (observe WaveformThread, fresh_world (λ _, true))).2 in
  let s := run [environment set_shuttingDown;
                environment (env_Signal g_waveformProcessedEvent);
                coordinator; coordinator; coordinator; coordinator;
                coordinator; coordinator; coordinator; coordinator]
               (thread_at at_Block, w) in
  terminated s.1 = true.
Proof.
  cbv zeta.
  apply (teardown_from_anywhere at_Block
           (env_step (env_Signal g_waveformProcessedEvent)
              (env_step set_shuttingDown
                 (thread_steps 7 (observe WaveformThread, fresh_world (λ _, true))).2)));
    reflexivity.
Defined.

(* ----------------------------------------------------------------- *)
(** ** WaveformThread: what it leaves alone *)

Lemma next_world_frame (p : Point) (w : World) :
  shuttingDown (next_world p w) = shuttingDown w
  /\ pending (next_world p w) = pending w
  /\ (waveformReady (next_world p w) = waveformReady w
      \/ waveformReady (next_world p w) = signaled)
  /\ (waveformProcessed (next_world p w) = waveformProcessed w
      \/ waveformProcessed (next_world p w) = idle)
  /\ trace w `prefix_of` trace (next_world p w)
  /\ polls w <= polls (next_world p w).
Proof.
  destruct p; cbn [next_world];
    try (destruct (waveformProcessed w) eqn:E);
    unfold log, next_poll, set_event;
    cbn [shuttingDown pending waveformReady waveformProcessed trace polls];
    repeat split; auto; try apply prefix_app_r; try reflexivity; try lia.
Qed.

(** X14: what the thread never touches.  However many steps it takes from
    whatever control point, the thread leaves the shut-down flag and the
    session's answers as they are; it never resets [g_waveformReadyEvent]
    (the event is as before or signaled) and never signals
    [g_waveformProcessedEvent] (the event is as before or idle); it only
    adds to its trace. *)
Theorem coordinator_leaves_alone (n : nat) (p : Point) (w : World) :
  let w' := (thread_steps n (thread_at p, w)).2 in
  shuttingDown w' = shuttingDown w
  /\ pending w' = pending w
  /\ (waveformReady w' = waveformReady w \/ waveformReady w' = signaled)
  /\ (waveformProcessed w' = waveformProcessed w \/ waveformProcessed w' = idle)
  /\ trace w `prefix_of` trace w'
  /\ polls w <= polls w'.
Proof.
  cbv zeta. revert p w. induction n as [|n IH]; intros p w.
  - rewrite thread_steps_0. cbn [snd]. repeat split; auto.
  - rewrite thread_steps_S, thread_step_point.
    destruct (IH (next_point p w) (next_world p w)) as (H1 & H2 & H3 & H4 & H5 & H6).
    destruct (next_world_frame p w) as (G1 & G2 & G3 & G4 & G5 & G6).
    split; [congruence|]. split; [congruence|].
    split; [destruct H3 as [H3|H3], G3 as [G3|G3]; (left; congruence) || (right; congruence)|].
    split; [destruct H4 as [H4|H4], G4 as [G4|G4]; (left; congruence) || (right; congruence)|].
    split; [etrans; eassumption | lia].
Qed.

(* ----------------------------------------------------------------- *)
(** ** WaveformThread with nothing to capture *)

Lemma idle_session_run (pend : nat -> bool) (sch : list Turn) (p : Point) (w : World) :
  (forall n, pend n = false) ->
  pending w = pend ->
  leaving_phase p = true \/ p = at_entry \/ p = at_log_starting ->
  Forall (λ a, a = sampled false \/ a = sampled true \/ a = polled false \/ a = slept 1)
         (trace w) ->
  Forall (λ a, a = sampled false \/ a = sampled true \/ a = polled false \/ a = slept 1)
         (trace (run sch (thread_at p, w)).2).
Proof.
  intros Hpend. revert p w. induction sch as [|t sch IH]; intros p w Hw Hp Htr.
  - exact Htr.
  - rewrite run_cons, turn_point. destruct t as [|a].
    + assert (Hnow : pending w (polls w) = false) by (rewrite Hw; apply Hpend).
      apply IH.
      * destruct (next_world_frame p w) as (_ & -> & _). exact Hw.
      * destruct Hp as [Hp|[->| ->]]; [|right; right; reflexivity | left; reflexivity].
        left. destruct p; try discriminate Hp; cbn [next_point]; rewrite ?Hnow;
          try reflexivity; destruct (shuttingDown w); reflexivity.
      * destruct Hp as [Hp|[->| ->]]; [|exact Htr | exact Htr].
        destruct p; try discriminate Hp; cbn [next_world]; try exact Htr;
          unfold log, next_poll; cbn [trace]; rewrite ?Hnow;
          apply Forall_app; (split; [exact Htr|]); apply Forall_singleton;
          try destruct (shuttingDown w); auto.
    + apply IH; [| exact Hp |].
      * destruct (env_step_frame a w) as (_ & _ & -> & _). exact Hw.
      * destruct (env_step_frame a w) as (-> & _). exact Htr.
Qed.

(** X15: with nothing to capture the coordinator only samples, polls and
    sleeps.  If the session never has waveforms pending, then under any
    schedule the thread never downloads, never signals "ready" and never
    waits on "processed": every action of its trace is a sample of the
    flag, a poll that answered false or a sleep of 1 ms. *)
Theorem idle_session_never_downloads (pend : nat -> bool) (sch : list Turn) :
  (forall n, pend n = false) ->
  let tr := trace (run sch (observe WaveformThread, fresh_world pend)).2 in
  Forall (λ a, a = sampled false \/ a = sampled true \/ a = polled false \/ a = slept 1) tr
  /\ (downloaded ∉ tr)
  /\ (signal g_waveformReadyEvent ∉ tr)
  /\ (woke g_waveformProcessedEvent ∉ tr).
Proof.
  intros Hpend. cbv zeta.
  pose proof (idle_session_run pend sch at_entry (fresh_world pend) Hpend eq_refl
                (or_intror (or_introl eq_refl)) (Forall_nil_2 _)) as Hall.
  assert (Hs : run sch (observe WaveformThread, fresh_world pend)
               = run sch (thread_at at_entry, fresh_world pend)) by reflexivity.
  rewrite Hs. split; [exact Hall|].
  rewrite Forall_forall in Hall.
  repeat split; intros Hin; apply Hall in Hin as [H|[H|[H|H]]]; discriminate H.
Qed.

(** Twelve steps of the thread against a session with nothing pending,
    with the consumer signaling "processed" in between: two retries and
    the beginning of a third. *)
Lemma idle_session_never_downloads_witness :
  let tr := trace (run (replicate 6 coordinator
                        ++ environment (env_Signal g_waveformProcessedEvent)
                        :: replicate 6 coordinator)
                       (observe WaveformThread, fresh_world (λ _, false))).2 in
  tr = [sampled false; polled false; slept 1; sampled false; polled false; slept 1;
        sampled false; polled false]
  /\ (downloaded ∉ tr).
Proof.
  cbv zeta. split; [reflexivity|].
  apply (idle_session_never_downloads (λ _, false)). reflexivity.
Defined.

(* ----------------------------------------------------------------- *)
(** ** Moves that change nothing, frames that keep the set in step *)

Lemma NoDup_lookup_split (v : list StreamDescriptor) (i : nat) (d : StreamDescriptor) :
  NoDup v -> v !! i = Some d ->
  v = take i v ++ d :: drop (S i) v /\ (d ∉ take i v) /\ length (take i v) = i.
Proof.
  intros Hnd Hi.
  pose proof (take_drop_middle v i d Hi) as Hmid.
  split; [symmetry; exact Hmid|]. split.
  - rewrite <- Hmid in Hnd. apply NoDup_app in Hnd as (_ & Hdisj & _).
    intros Hin. apply (Hdisj d Hin). apply elem_of_cons. left. reflexivity.
  - apply length_take_le. apply lookup_lt_Some in Hi. lia.
Qed.

(** X16: dropping a row on itself changes nothing.  In a list without
    duplicates, the move of the stream of row [i] to row [i] returns the
    dialog as it was, provided the set holds the stream. *)
Theorem MoveStream_onto_itself (st : MeasurementsDialog) (d : StreamDescriptor) (i : nat) :
  NoDup (m_streams st) ->
  m_streams st !! i = Some d ->
  d ∈ m_streamset st ->
  MoveStream d i st = Returns st.
Proof.
  intros Hnd Hi Hset.
  destruct (NoDup_lookup_split _ _ _ Hnd Hi) as (Hsplit & Hout & Hlen).
  assert (Herase : erase_first d (m_streams st) = take i (m_streams st) ++ drop (S i) (m_streams st)).
  { rewrite Hsplit at 1. apply erase_first_app_absent, Hout. }
  unfold MoveStream. rewrite Herase.
  rewrite decide_True by (rewrite length_app, Hlen; lia).
  f_equal. destruct st as [v s calls]. cbn [m_streams m_streamset ref_calls] in *.
  f_equal.
  - unfold vector_insert.
    rewrite take_app_length' by (symmetry; exact Hlen).
    rewrite drop_app_length' by (symmetry; exact Hlen).
    symmetry. exact Hsplit.
  - set_solver.
Qed.

Lemma MoveStream_onto_itself_witness :
  MoveStream chanB 1 (AddStream chanC (AddStream chanB (AddStream chanA MeasurementsDialog_new)))
  = Returns (AddStream chanC (AddStream chanB (AddStream chanA MeasurementsDialog_new))).
Proof.
  apply MoveStream_onto_itself.
  - apply (bool_decide_unpack _). vm_compute. exact I.
  - vm_compute. reflexivity.
  - apply (bool_decide_unpack _). vm_compute. exact I.
Defined.

(** X17: a frame in which no row is deleted keeps the sequence and the
    set in step: the move and the drop on the blank row both put into the
    set what they list. *)
Theorem DoRender_without_delete_coherent (as_descriptor : option nat -> StreamDescriptor)
    (ui : FrameInput) (st st' : MeasurementsDialog) :
  coherent st ->
  (forall i, i < length (m_streams st) -> delete_clicked (row_input ui i) = false) ->
  DoRender as_descriptor ui st = Returns st' ->
  coherent st'.
Proof.
  intros Hco Hnodel. unfold DoRender.
  destruct (BeginTable ui); [|intros [= <-]; exact Hco]. cbv zeta.
  assert (Hdel : deleteRow (render_rows ui st) = None).
  { destruct (deleteRow (render_rows ui st)) as [k|] eqn:E; [|reflexivity].
    apply render_rows_deleteRow in E as (Hk & Hc & _).
    rewrite (Hnodel k Hk) in Hc. discriminate Hc. }
  rewrite Hdel.
  assert (Hblank : forall st1, coherent st1 ->
             coherent match m_streams st1, blank_row_payload ui with
                      | [], Some stream => AddStream stream st1
                      | _, _ => st1
                      end).
  { intros st1 Hco1. destruct (m_streams st1); [|exact Hco1].
    destruct (blank_row_payload ui); [apply coherent_AddStream, Hco1 | exact Hco1]. }
  destruct (moving (render_rows ui st)) as [[ms dest]|].
  - destruct (MoveStream ms dest st) as [st1| |] eqn:Hmove; cbn [and_then]; try discriminate.
    intros [= <-]. apply Hblank, (coherent_MoveStream ms dest st st1 Hco Hmove).
  - cbn [and_then]. intros [= <-]. apply Hblank, Hco.
Qed.

Lemma DoRender_without_delete_coherent_witness :
  exists st',
    DoRender stream0_of_channel (drop_on_row0 chanA_stream1)
             (AddStream chanA MeasurementsDialog_new) = Returns st'
    /\ m_streams st' = [chanA_stream1; chanA]
    /\ coherent st'.
Proof.
  eexists. split; [vm_compute; reflexivity|]. split; [reflexivity|].
  apply (DoRender_without_delete_coherent stream0_of_channel (drop_on_row0 chanA_stream1)
           (AddStream chanA MeasurementsDialog_new)).
  - apply coherent_AddStream, coherent_new.
  - intros i _. unfold drop_on_row0; cbn. destruct (decide (i = 0)); reflexivity.
  - vm_compute. reflexivity.
Defined.
